(** * Travel legs, weekly distance series and forecast inputs

    A shallow embedding of [src/utils.py] and of the data path of
    [src/analysis.py], followed by the properties of the trip-leg
    reconstruction, the weekly grid, the synthetic cost model and the
    forecast inputs.

    Conventions of the embedding.
    - A Python [float] is a real number ([R]); rounding is not modelled.
      [math.sin], [math.cos], [math.asin], [math.sqrt] and [math.pi] are
      the functions of the same name of the real-number library.
    - A timestamp is a calendar day, held as its proleptic Gregorian
      ordinal (day 1 is 0001-01-01, a Monday), as [datetime.toordinal]
      numbers days.  The schedule holds dates without a time of day.
    - A raised Python exception is the left injection of [result];
      statements run in sequence through [bind]. *)

From Stdlib Require Import ZArith List String Bool Lia Reals Lra Permutation.
Import ListNotations.

(** ** Exceptions *)

Inductive exn : Type :=
| IndexError
| KeyError (key : string)
| ValueError.

Definition result (A : Type) : Type := (exn + A)%type.

Definition ret {A : Type} (a : A) : result A := inr a.

Definition raise {A : Type} (e : exn) : result A := inl e.

Definition bind {A B : Type} (m : result A) (k : A -> result B) : result B :=
  match m with
  | inl e => inl e
  | inr a => k a
  end.

Notation "x <- m ;; k" := (bind m (fun x => k))
  (at level 61, m at next level, right associativity).

(** ** Calendar days *)

Module Calendar.
Local Open Scope Z_scope.

Definition Timestamp : Type := Z.

Definition is_leap (year : Z) : bool :=
  (year mod 4 =? 0) && (negb (year mod 100 =? 0) || (year mod 400 =? 0)).

Definition days_before_year (year : Z) : Z :=
  let y := year - 1 in
  y * 365 + y / 4 - y / 100 + y / 400.

Definition DAYS_IN_MONTH : list Z :=
  [31; 28; 31; 30; 31; 30; 31; 31; 30; 31; 30; 31].

(** Days of the year before the first of [month] (1 to 12). *)
Definition days_before_month (leap : bool) (month : Z) : Z :=
  fold_right Z.add 0 (firstn (Z.to_nat (month - 1)) DAYS_IN_MONTH)
  + (if (2 <? month) && leap then 1 else 0).

(** The day [year]-[month]-[day] as an ordinal. *)
Definition ymd (year month day : Z) : Timestamp :=
  days_before_year year + days_before_month (is_leap year) month + day.

Definition DI400Y : Z := 146097.
Definition DI100Y : Z := 36524.
Definition DI4Y : Z := 1461.

(** Year, month and day of an ordinal. *)
Definition ord2ymd (ordinal : Timestamp) : Z * Z * Z :=
  let n := ordinal - 1 in
  let n400 := n / DI400Y in
  let n := n mod DI400Y in
  let year := n400 * 400 + 1 in
  let n100 := n / DI100Y in
  let n := n mod DI100Y in
  let n4 := n / DI4Y in
  let n := n mod DI4Y in
  let n1 := n / 365 in
  let n := n mod 365 in
  let year := year + n100 * 100 + n4 * 4 + n1 in
  if (n1 =? 4) || (n100 =? 4) then (year - 1, 12, 31)
  else
    let leapyear := (n1 =? 3) && (negb (n4 =? 24) || (n100 =? 3)) in
    let month := Z.shiftr (n + 50) 5 in
    let preceding := days_before_month leapyear month in
    if n <? preceding
    then (year, month - 1, n - days_before_month leapyear (month - 1) + 1)
    else (year, month, n - preceding + 1).

(** [dt.month] *)
Definition month (dt : Timestamp) : Z := snd (fst (ord2ymd dt)).

(** [dt.weekday()]: Monday is 0, Sunday is 6. *)
Definition weekday (dt : Timestamp) : Z := (dt + 6) mod 7.

(** [dt.to_period("W").start_time]: the weekly period is the one anchored
    on Sunday ([W-SUN]), Monday to Sunday; its start is the Monday on or
    before [dt]. *)
Definition week_start_time (dt : Timestamp) : Timestamp := dt - weekday dt.

(** The first Sunday on or after [dt]: where the weekly offset ["W"]
    ([W-SUN]) rolls a start date forward to. *)
Definition rollforward_W (dt : Timestamp) : Timestamp := dt + (6 - weekday dt).

(** [n] points, one week apart, from [first]. *)
Definition weekly_from (first : Timestamp) (n : nat) : list Timestamp :=
  map (fun i => first + 7 * Z.of_nat i) (seq 0 n).

(** [pd.date_range(start, end, freq="W")]: the Sundays of the closed
    interval from [start] to [end]. *)
Definition date_range_W (start stop : Timestamp) : list Timestamp :=
  let first := rollforward_W start in
  if stop <? first then []
  else weekly_from first (Z.to_nat ((stop - first) / 7 + 1)).

(** [pd.date_range(start, periods=n, freq="W")] *)
Definition date_range_W_periods (start : Timestamp) (periods : nat)
  : list Timestamp :=
  weekly_from (rollforward_W start) periods.

End Calendar.

(** ** utils.py *)

Module Utils.
Import Calendar.

Record City : Type := mkCity {
  city : string;
  lat : R;
  lon : R;
  airport : string
}.

Record Game : Type := mkGame {
  game_date : Timestamp;
  venue_city : string
}.

(** A leg is the dict appended to [legs]; its ["date"] is a timestamp or
    Python's [None] (the initial value of [prev_date]). *)
Record Leg : Type := mkLeg {
  date : option Timestamp;
  from_city : string;
  to_city : string;
  km : R
}.

Section Haversine.
Local Open Scope R_scope.

(** [math.radians] *)
Definition radians (x : R) : R := x * (PI / 180).

Definition haversine (lat1 lon1 lat2 lon2 : R) : R :=
  let R := 6371 in
  let phi1 := radians lat1 in
  let phi2 := radians lat2 in
  let dphi := radians (lat2 - lat1) in
  let dlambda := radians (lon2 - lon1) in
  let a := (sin (dphi / 2)) ^ 2
           + cos phi1 * cos phi2 * (sin (dlambda / 2)) ^ 2 in
  2 * R * asin (sqrt a).

End Haversine.

(** [cities_df[cities_df["city"] == name].iloc[0]]: the first row of the
    table whose city is [name]; [IndexError] when there is none. *)
Definition city_row (cities_df : list City) (name : string) : result City :=
  match filter (fun r => String.eqb (city r) name) cities_df with
  | [] => raise IndexError
  | r :: _ => ret r
  end.

(** [df_games.sort_values("date")]: rows in ascending date order.  Rows
    of equal date keep their input order here (pandas leaves the order of
    ties to the sort algorithm). *)
Fixpoint insert_by_date (g : Game) (l : list Game) : list Game :=
  match l with
  | [] => [g]
  | h :: t =>
      if (game_date g <? game_date h)%Z then g :: h :: t
      else h :: insert_by_date g t
  end.

Definition sort_values (df_games : list Game) : list Game :=
  fold_right insert_by_date [] (rev df_games).

(** The variables of the loop of [compute_trip_legs]. *)
Record Cursor : Type := mkCursor {
  legs : list Leg;
  prev_city : string;
  prev_date : option Timestamp
}.

(** The body of [for _, row in df.iterrows()]. *)
Definition visit (cities_df : list City) (st : Cursor) (row : Game)
  : result Cursor :=
  let to_city := venue_city row in
  legs' <- (if negb (String.eqb to_city (prev_city st)) then
              from_row <- city_row cities_df (prev_city st) ;;
              to_row <- city_row cities_df to_city ;;
              let km := haversine (lat from_row) (lon from_row)
                                  (lat to_row) (lon to_row) in
              ret (legs st ++ [mkLeg (Some (game_date row)) (prev_city st)
                                     to_city km])
            else ret (legs st)) ;;
  ret (mkCursor legs' to_city (Some (game_date row))).

Fixpoint iterrows (cities_df : list City) (st : Cursor) (df : list Game)
  : result Cursor :=
  match df with
  | [] => ret st
  | row :: rest =>
      st' <- visit cities_df st row ;;
      iterrows cities_df st' rest
  end.

(** The statements after the loop: the travel home. *)
Definition travel_home (cities_df : list City) (base_city : string)
  (st : Cursor) : result (list Leg) :=
  if negb (String.eqb (prev_city st) base_city) then
    from_row <- city_row cities_df (prev_city st) ;;
    to_row <- city_row cities_df base_city ;;
    let km := haversine (lat from_row) (lon from_row)
                        (lat to_row) (lon to_row) in
    ret (legs st ++ [mkLeg (prev_date st) (prev_city st) base_city km])
  else ret (legs st).

(** [compute_trip_legs(df_games, cities_df, base_city)]; the value is the
    list [legs] that the function wraps in a data frame. *)
Definition compute_trip_legs (df_games : list Game) (cities_df : list City)
  (base_city : string) : result (list Leg) :=
  let df := sort_values df_games in
  st <- iterrows cities_df (mkCursor [] base_city None) df ;;
  travel_home cities_df base_city st.

(** *** The synthetic cost model *)

(** A series: index labels with their values, in index order. *)
Definition Series (A : Type) : Type := list (Timestamp * A).

(** [max(a, b)] on two floats: [b] when [b > a], else [a]. *)
Definition py_max (a b : R) : R := if Rlt_dec a b then b else a.

Definition seasonal_factor (month : Z) : R :=
  (40 + 10 * sin (2 * PI * IZR (month - 1) / 12)
      + 8 * cos (2 * PI * IZR (month - 3) / 12))%R.

Section CostModel.

(** numpy's generator: [np.random.default_rng(seed)] builds one from a
    seed, and [rng.normal(loc, scale)] returns a draw and leaves the
    generator advanced. *)
Variable Generator : Type.
Variable default_rng : Z -> Generator.
Variable normal : Generator -> R -> R -> R * Generator.

(** The loop [for dt, km in zip(dates, km_series.values)], appending to
    [costs]. *)
Fixpoint cost_loop (rng : Generator) (rows : list (Timestamp * R))
  (costs : list R) : list R :=
  match rows with
  | [] => costs
  | (dt, km) :: rest =>
      let month := Calendar.month dt in
      let seasonal := seasonal_factor month in
      let (noise, rng') := normal rng 0%R 25%R in
      let cost := (0.12 * km + seasonal + noise)%R in
      cost_loop rng' rest (costs ++ [py_max 50 cost])
  end.

Definition basic_cost_model (km_series : Series R) (seed : Z) : Series R :=
  let rng := default_rng seed in
  let dates := map fst km_series in
  combine dates (cost_loop rng (combine dates (map snd km_series)) []).

(** The call with the default argument [seed=0]. *)
Definition basic_cost_model_default (km_series : Series R) : Series R :=
  basic_cost_model km_series 0%Z.

End CostModel.

End Utils.

(** ** analysis.py *)

Module Analysis.
Import Calendar Utils.
Local Open Scope string_scope.
Local Open Scope list_scope.

Definition ASSETS_DIR : string := "assets".
Definition BASE_CITY : string := "Dallas".

(** *** Data frames *)

Inductive cell : Type :=
| NaN
| Stamp (t : Timestamp)
| Str (s : string)
| Num (x : R).

(** A frame: its column labels in order, and its rows, each with one
    cell per column. *)
Record DataFrame : Type := mkFrame {
  columns : list string;
  rows : list (list cell)
}.

(** A Python dict with string keys, in insertion order. *)
Definition record : Type := list (string * cell).

Definition has_label (labels : list string) (k : string) : bool :=
  existsb (String.eqb k) labels.

Definition add_labels (labels keys : list string) : list string :=
  fold_left (fun acc k => if has_label acc k then acc else acc ++ [k])
            keys labels.

Definition record_get (r : record) (k : string) : cell :=
  match find (fun kv => String.eqb (fst kv) k) r with
  | Some kv => snd kv
  | None => NaN
  end.

(** [pd.DataFrame(records)]: the columns are the keys in order of first
    appearance; no records, no columns. *)
Definition DataFrame_of_records (records : list record) : DataFrame :=
  let cols := fold_left (fun acc r => add_labels acc (map fst r)) records [] in
  mkFrame cols (map (fun r => map (record_get r) cols) records).

(** The dict appended to [legs] by [compute_trip_legs]. *)
Definition leg_record (l : Leg) : record :=
  [ ("date", match date l with Some t => Stamp t | None => NaN end);
    ("from_city", Str (from_city l));
    ("to_city", Str (to_city l));
    ("km", Num (km l)) ].

Fixpoint position (labels : list string) (k : string) : option nat :=
  match labels with
  | [] => None
  | h :: t => if String.eqb h k then Some O
              else option_map S (position t k)
  end.

(** [df[label]] *)
Definition getitem (df : DataFrame) (label : string) : result (list cell) :=
  match position (columns df) label with
  | Some i => ret (map (fun r => nth i r NaN) (rows df))
  | None => raise (KeyError label)
  end.

Fixpoint set_nth (i : nat) (v : cell) (r : list cell) : list cell :=
  match i, r with
  | O, _ :: t => v :: t
  | S j, h :: t => h :: set_nth j v t
  | _, [] => []
  end.

(** [df[label] = values]: the column is replaced when the label exists
    and added as the last column when it does not.  The frame is the same
    object before and after; the caller keeps using the updated one. *)
Definition setitem (df : DataFrame) (label : string) (values : list cell)
  : DataFrame :=
  match position (columns df) label with
  | Some i =>
      mkFrame (columns df)
              (map (fun rv => set_nth i (snd rv) (fst rv))
                   (combine (rows df) values))
  | None =>
      mkFrame (columns df ++ [label])
              (map (fun rv => fst rv ++ [snd rv]) (combine (rows df) values))
  end.

(** What [df.to_csv(path, index=False)] writes: the header line and one
    line per row. *)
Record Csv : Type := mkCsv {
  header : list string;
  lines : list (list cell)
}.

Definition to_csv (df : DataFrame) : Csv := mkCsv (columns df) (rows df).

(** *** Series *)

(** [.dt.to_period("W").apply(lambda r: r.start_time)] on one cell. *)
Definition to_week_start (c : cell) : cell :=
  match c with
  | Stamp t => Stamp (week_start_time t)
  | _ => NaN
  end.

(** One row added to the group sums, kept in ascending key order. *)
Fixpoint add_to_group (w : Timestamp) (x : R) (s : Series R) : Series R :=
  match s with
  | [] => [(w, x)]
  | (w', y) :: t =>
      if (w <? w')%Z then (w, x) :: (w', y) :: t
      else if (w =? w')%Z then (w', (y + x)%R) :: t
      else (w', y) :: add_to_group w x t
  end.

(** [df.groupby(key)[val].sum().sort_index()]: rows without a key are
    dropped, a missing value adds nothing. *)
Definition groupby_sum (keys vals : list cell) : Series R :=
  fold_left (fun acc kv =>
               match kv with
               | (Stamp w, Num x) => add_to_group w x acc
               | (Stamp w, _) => add_to_group w 0%R acc
               | _ => acc
               end)
            (combine keys vals) [].

Definition index {A : Type} (s : Series A) : list Timestamp := map fst s.
Definition values {A : Type} (s : Series A) : list A := map snd s.

Definition index_min {A : Type} (s : Series A) : option Timestamp :=
  match index s with
  | [] => None
  | h :: t => Some (fold_left Z.min t h)
  end.

Definition index_max {A : Type} (s : Series A) : option Timestamp :=
  match index s with
  | [] => None
  | h :: t => Some (fold_left Z.max t h)
  end.

(** [pd.date_range(s.index.min(), s.index.max(), freq="W")]; the bounds of
    an empty index are [NaT], which [date_range] refuses. *)
Definition date_range_of {A : Type} (s : Series A) : result (list Timestamp) :=
  match index_min s, index_max s with
  | Some lo, Some hi => ret (date_range_W lo hi)
  | _, _ => raise ValueError
  end.

Definition loc {A : Type} (s : Series A) (t : Timestamp) : option A :=
  option_map snd (find (fun p => (fst p =? t)%Z) s).

(** [s.reindex(new_index)]: the value at each new label, [None] (NaN)
    where the series has no such label. *)
Definition reindex {A : Type} (s : Series A) (new_index : list Timestamp)
  : Series (option A) :=
  map (fun t => (t, loc s t)) new_index.

(** [s.fillna(v)] *)
Definition fillna (s : Series (option R)) (v : R) : Series R :=
  map (fun p => (fst p, match snd p with Some x => x | None => v end)) s.

(** The number of NaN before the next value, and that value. *)
Fixpoint next_valid (l : list (option R)) : option (nat * R) :=
  match l with
  | [] => None
  | Some w :: _ => Some (O, w)
  | None :: t => option_map (fun kw => (S (fst kw), snd kw)) (next_valid t)
  end.

(** [s.interpolate()] on the values: linear by position between two
    values, the last value repeated after it, NaN kept before the first
    value.  [prev] is the entry before the current one. *)
Fixpoint interpolate_values (prev : option R) (l : list (option R))
  : list (option R) :=
  match l with
  | [] => []
  | Some w :: t => Some w :: interpolate_values (Some w) t
  | None :: t =>
      match prev with
      | None => None :: interpolate_values None t
      | Some v =>
          let x := match next_valid t with
                   | Some (k, w) => (v + (w - v) / (INR k + 2))%R
                   | None => v
                   end in
          Some x :: interpolate_values (Some x) t
      end
  end.

Definition interpolate (s : Series (option R)) : Series (option R) :=
  combine (index s) (interpolate_values None (values s)).

(** The position a slice bound [k] stands for in a sequence of length
    [n]: negative bounds count from the end, and all are clipped. *)
Definition slice_bound (k : Z) (n : nat) : nat :=
  if (k <? 0)%Z then Z.to_nat (Z.max 0 (Z.of_nat n + k))
  else Nat.min (Z.to_nat k) n.

(** [s.iloc[:k]] and [s.iloc[k:]] *)
Definition iloc_to {A : Type} (k : Z) (s : list A) : list A :=
  firstn (slice_bound k (List.length s)) s.

Definition iloc_from {A : Type} (k : Z) (s : list A) : list A :=
  skipn (slice_bound k (List.length s)) s.

(** [pd.concat([test_km, pd.Series([0.0]*12, index=pd.date_range(
    test_km.index[-1] + pd.Timedelta(weeks=1), periods=12, freq="W"))])] *)
Definition concat_future (test_km : Series R) : result (Series R) :=
  match rev (index test_km) with
  | [] => raise IndexError
  | last :: _ =>
      ret (test_km
           ++ combine (date_range_W_periods (last + 7)%Z 12)
                      (repeat 0%R 12))
  end.

(** *** [main], up to the forecast *)

(** The local variables of [main] when the run reaches the forecast.
    [legs] is the frame returned by [compute_trip_legs], which the
    assignment of its ["week"] column updates in place and which the
    export at the end of [main] writes. *)
Record Locals : Type := mkLocals {
  legs : DataFrame;
  ts_km_weekly : Series R;
  cost_series : Series R;
  weekly_index : list Timestamp;
  km : Series R;
  cost : Series (option R);
  split : Z;
  train_cost : Series (option R);
  test_cost : Series (option R);
  train_km : Series R;
  test_km : Series R;
  horizon : nat;
  exog_future : Series R
}.

(** What a whole run of [main] leaves: the two files written, each with
    its path, and the local variables at the end. *)
Record Outputs : Type := mkOutputs {
  forecast_file : string * Csv;
  travel_legs_file : string * Csv;
  final_locals : Locals
}.

Section Main.

Variable Generator : Type.
Variable default_rng : Z -> Generator.
Variable normal : Generator -> R -> R -> R * Generator.

(** The statements of [main] from the load of the inputs to the build of
    [exog_future], without the fit of the model (a library call between
    [train_km] and [horizon] that assigns none of these variables, and
    that stops the run when it raises). *)
Definition main_locals (df_cities : list City) (df_sched : list Game)
  : result Locals :=
  trip <- compute_trip_legs df_sched df_cities BASE_CITY ;;
  let legs := DataFrame_of_records (map leg_record trip) in
  dates <- getitem legs "date" ;;
  let legs := setitem legs "week" (map to_week_start dates) in
  weeks <- getitem legs "week" ;;
  kms <- getitem legs "km" ;;
  let ts_km_weekly := groupby_sum weeks kms in
  let cost_series :=
    basic_cost_model_default Generator default_rng normal ts_km_weekly in
  weekly_index <- date_range_of ts_km_weekly ;;
  let km := fillna (reindex ts_km_weekly weekly_index) 0%R in
  let cost := interpolate (reindex cost_series weekly_index) in
  let split := if (10 <? List.length weekly_index)%nat then (-8)%Z else (-2)%Z in
  let train_cost := iloc_to split cost in
  let test_cost := iloc_from split cost in
  let train_km := iloc_to split km in
  let test_km := iloc_from split km in
  let horizon := (List.length test_cost + 12)%nat in
  exog_future <- concat_future test_km ;;
  ret (mkLocals legs ts_km_weekly cost_series weekly_index km cost split
                train_cost test_cost train_km test_km horizon exog_future).

(** [legs.to_csv(os.path.join(ASSETS_DIR, "travel_legs.csv"), index=False)],
    the last statement of [main] before its message. *)
Definition travel_legs_csv (l : Locals) : string * Csv :=
  (ASSETS_DIR ++ "/travel_legs.csv", to_csv (legs l))%string.

(** *** [main], the whole run *)

(** statsmodels' forecaster: [SARIMAX(train_cost, ..., exog=train_km)
    .fit(disp=False)] and [get_forecast(steps, exog)] with its 80%
    interval, one row (week, mean, lower, upper) for each step.  Both are
    library calls that may raise; on an empty training window the first
    raises [ValueError]. *)
Variable Fitted : Type.
Variable SARIMAX_fit : Series (option R) -> Series R -> result Fitted.
Variable get_forecast :
  Fitted -> nat -> Series R -> result (list (Timestamp * R * R * R)).

(** [out_df.to_csv(out_path, index=False)] *)
Definition weekly_cost_forecast_csv (pred : list (Timestamp * R * R * R))
  : string * Csv :=
  ("assets/weekly_cost_forecast.csv",
   mkCsv [ "week"; "predicted_cost"; "lower"; "upper" ]
         (map (fun row => match row with
                          | (week, mean, lower, upper) =>
                              [ Stamp week; Num mean; Num lower; Num upper ]
                          end) pred)).

(** The statements of [main] in order, from the load of the inputs to the
    export of the legs; the plots are not modelled.  The run returns the
    two files it wrote and its local variables. *)
Definition main (df_cities : list City) (df_sched : list Game)
  : result Outputs :=
  trip <- compute_trip_legs df_sched df_cities BASE_CITY ;;
  let legs := DataFrame_of_records (map leg_record trip) in
  dates <- getitem legs "date" ;;
  let legs := setitem legs "week" (map to_week_start dates) in
  weeks <- getitem legs "week" ;;
  kms <- getitem legs "km" ;;
  let ts_km_weekly := groupby_sum weeks kms in
  let cost_series :=
    basic_cost_model_default Generator default_rng normal ts_km_weekly in
  weekly_index <- date_range_of ts_km_weekly ;;
  let km := fillna (reindex ts_km_weekly weekly_index) 0%R in
  let cost := interpolate (reindex cost_series weekly_index) in
  let split := if (10 <? List.length weekly_index)%nat then (-8)%Z else (-2)%Z in
  let train_cost := iloc_to split cost in
  let test_cost := iloc_from split cost in
  let train_km := iloc_to split km in
  let test_km := iloc_from split km in
  res <- match train_cost with
         | [] => raise ValueError
         | _ :: _ => SARIMAX_fit train_cost train_km
         end ;;
  let horizon := (List.length test_cost + 12)%nat in
  exog_future <- concat_future test_km ;;
  pred <- get_forecast res horizon exog_future ;;
  let locals :=
    mkLocals legs ts_km_weekly cost_series weekly_index km cost split
             train_cost test_cost train_km test_km horizon exog_future in
  ret (mkOutputs (weekly_cost_forecast_csv pred) (travel_legs_csv locals)
                 locals).

End Main.

End Analysis.

(** ** Vocabulary of the properties *)

Import Calendar Utils.

(** Every game is dated no later than each game after it. *)
Fixpoint chronological (games : list Game) : bool :=
  match games with
  | [] => true
  | g :: rest =>
      forallb (fun h => (game_date g <=? game_date h)%Z) rest
      && chronological rest
  end.

(** The part of [compute_trip_legs] after the sort: the loop over the
    rows [df] in the order given, and the travel home. *)
Definition legs_of_rows (df : list Game) (cities_df : list City)
  (base_city : string) : result (list Leg) :=
  st <- iterrows cities_df (mkCursor [] base_city None) df ;;
  travel_home cities_df base_city st.

(** The coordinate table has a row for [name]. *)
Definition city_known (cities_df : list City) (name : string) : bool :=
  existsb (fun r => String.eqb (city r) name) cities_df.

Definition venues (games : list Game) : list string := map venue_city games.

(** The current-city cursor when game number [i] is visited: the home base
    for the first game, the venue of the game before for the others. *)
Definition cursor_before (base_city : string) (games : list Game) (i : nat)
  : string :=
  match i with
  | O => base_city
  | S j => match nth_error games j with
           | Some g => venue_city g
           | None => base_city
           end
  end.

(** [l] is the leg of day [d] from [a] to [b]: both cities have a row in
    the table and the distance is the haversine distance of their
    coordinates. *)
Definition is_leg (cities_df : list City) (d : Timestamp) (a b : string)
  (l : Leg) : Prop :=
  exists from_row to_row,
    city_row cities_df a = inr from_row /\
    city_row cities_df b = inr to_row /\
    l = mkLeg (Some d) a b
              (haversine (lat from_row) (lon from_row)
                         (lat to_row) (lon to_row)).

(** What the visit of game [g] with the cursor at [cursor] adds to the
    legs: nothing when the venue is the cursor, one leg otherwise. *)
Definition emits (cities_df : list City) (cursor : string) (g : Game)
  (added : list Leg) : Prop :=
  (venue_city g = cursor -> added = []) /\
  (venue_city g <> cursor ->
   exists l, added = [l] /\
             is_leg cities_df (game_date g) cursor (venue_city g) l).

(** The legs form a chain from [start]: each leg leaves from where the
    one before arrived, and none stays in place. *)
Fixpoint is_chain (start : string) (l : list Leg) : bool :=
  match l with
  | [] => true
  | x :: rest =>
      String.eqb (from_city x) start
      && negb (String.eqb (from_city x) (to_city x))
      && is_chain (to_city x) rest
  end.

(** Where a chain from [start] ends. *)
Definition chain_end (start : string) (l : list Leg) : string :=
  last (map to_city l) start.

(** The game is played in the city [name]. *)
Definition at_city (name : string) (g : Game) : bool :=
  String.eqb (venue_city g) name.

Section Draws.

Variable Generator : Type.
Variable normal : Generator -> R -> R -> R * Generator.

(** The generator after [n] calls of [rng.normal(0, 25.0)]. *)
Fixpoint generator_after (rng : Generator) (n : nat) : Generator :=
  match n with
  | O => rng
  | S k => snd (normal (generator_after rng k) 0%R 25%R)
  end.

(** The value of call number [i] (from 0) of [rng.normal(0, 25.0)]. *)
Definition draw (rng : Generator) (i : nat) : R :=
  fst (normal (generator_after rng i) 0%R 25%R).

(** The cost of row number [i], with the noise of draw number [i]. *)
Definition cost_of_row (rng : Generator) (i : nat) (row : Timestamp * R)
  : Timestamp * R :=
  (fst row,
   py_max 50 (0.12 * snd row + seasonal_factor (Calendar.month (fst row))
              + draw rng i)%R).

Fixpoint map_from {A B : Type} (f : nat -> A -> B) (i : nat) (l : list A)
  : list B :=
  match l with
  | [] => []
  | x :: rest => f i x :: map_from f (S i) rest
  end.

End Draws.

(** The example of the schedule of one game. *)
Definition example_cities (airport1 airport2 : string) : list City :=
  [ mkCity "Dallas" 32.78%R (-96.80)%R airport1;
    mkCity "Denver" 39.74%R (-104.99)%R airport2 ].

Definition example_games : list Game := [ mkGame (ymd 2024 1 5) "Denver" ].

(** A schedule of three games over three weeks. *)
Definition three_week_games : list Game :=
  [ mkGame (ymd 2024 1 5) "Denver";
    mkGame (ymd 2024 1 12) "Dallas";
    mkGame (ymd 2024 1 20) "Denver" ].

(** A schedule of five games over five weeks. *)
Definition five_week_games : list Game :=
  [ mkGame (ymd 2024 1 5) "Denver";
    mkGame (ymd 2024 1 12) "Dallas";
    mkGame (ymd 2024 1 19) "Denver";
    mkGame (ymd 2024 1 26) "Dallas";
    mkGame (ymd 2024 2 2) "Denver" ].

(** A forecaster for examples: it fits any training window and forecasts
    0 for each row of the future regressor. *)
Definition constant_fit (train_cost : Series (option R)) (train_km : Series R)
  : result unit := ret tt.

Definition constant_forecast (res : unit) (steps : nat) (exog : Series R)
  : result (list (Timestamp * R * R * R)) :=
  ret (map (fun p => (fst p, 0%R, 0%R, 0%R)) exog).

(** The weekly-km series that [main] computes from the legs [trip]. *)
Definition weekly_km_of_legs (trip : list Leg) : Series R :=
  Analysis.groupby_sum
    (map (fun l => Analysis.to_week_start
                     (match date l with
                      | Some t => Analysis.Stamp t
                      | None => Analysis.NaN
                      end)) trip)
    (map (fun l => Analysis.Num (km l)) trip).

(** A generator for examples: it counts its calls and draws no noise. *)
Definition counting_rng (seed : Z) : nat := Z.to_nat seed.
Definition counting_normal (rng : nat) (loc scale : R) : R * nat :=
  (loc, S rng).

(** The cells of a leg in the frame of legs, and with the week column. *)
Definition date_cell (l : Leg) : Analysis.cell :=
  match date l with
  | Some t => Analysis.Stamp t
  | None => Analysis.NaN
  end.

Definition leg_cells (l : Leg) : list Analysis.cell :=
  [ date_cell l; Analysis.Str (from_city l); Analysis.Str (to_city l);
    Analysis.Num (km l) ].

Definition week_cell (l : Leg) : Analysis.cell :=
  Analysis.to_week_start (date_cell l).

Definition leg_columns : list string :=
  [ "date"; "from_city"; "to_city"; "km" ]%string.

(** The key of a group, when the cell holds one, satisfies [P]. *)
Definition key_satisfies (P : Timestamp -> Prop) (c : Analysis.cell) : Prop :=
  match c with
  | Analysis.Stamp w => P w
  | _ => True
  end.

(** The value of [a] in [haversine]: the argument of [math.sqrt]. *)
Definition haversine_a (lat1 lon1 lat2 lon2 : R) : R :=
  ((sin (radians (lat2 - lat1) / 2)) ^ 2
   + cos (radians lat1) * cos (radians lat2)
     * (sin (radians (lon2 - lon1) / 2)) ^ 2)%R.

(** A returned leg comes from the schedule and the table: its date is
    the date of a game, its cities are the home base or venues, both have
    a row in the table, and its km is the haversine distance of the two
    rows. *)
Definition leg_of_schedule (cities_df : list City) (games : list Game)
  (base_city : string) (l : Leg) : Prop :=
  (exists g, In g games /\ date l = Some (game_date g)) /\
  In (from_city l) (base_city :: venues games) /\
  In (to_city l) (base_city :: venues games) /\
  exists from_row to_row,
    In from_row cities_df /\ In to_row cities_df /\
    city_row cities_df (from_city l) = inr from_row /\
    city_row cities_df (to_city l) = inr to_row /\
    km l = haversine (lat from_row) (lon from_row) (lat to_row) (lon to_row).

(** The state of the loop is made from the schedule [all] and the table. *)
Definition cursor_of_schedule (cities_df : list City) (all : list Game)
  (base_city : string) (st : Cursor) : Prop :=
  Forall (leg_of_schedule cities_df all base_city) (legs st) /\
  In (prev_city st) (base_city :: venues all) /\
  match prev_date st with
  | None => prev_city st = base_city
  | Some d => exists g, In g all /\ d = game_date g
  end.

(** The number of games played in another city than the game before
    (than [cursor] for the first game). *)
Fixpoint venue_changes (cursor : string) (vs : list string) : nat :=
  match vs with
  | [] => O
  | v :: rest =>
      ((if String.eqb v cursor then 0 else 1) + venue_changes v rest)%nat
  end.

(** No two games have the same date. *)
Fixpoint distinct_dates (games : list Game) : bool :=
  match games with
  | [] => true
  | g :: rest =>
      forallb (fun h => negb (game_date g =? game_date h)%Z) rest
      && distinct_dates rest
  end.

(** The dates, each no later than those after it. *)
Fixpoint ascending (ds : list Z) : bool :=
  match ds with
  | [] => true
  | d :: rest => forallb (fun e => (d <=? e)%Z) rest && ascending rest
  end.

(** The sum of a list of floats. *)
Definition total (l : list R) : R := fold_right Rplus 0%R l.

(** The dates, each earlier than those after it. *)
Fixpoint strictly_ascending (ds : list Z) : bool :=
  match ds with
  | [] => true
  | d :: rest => forallb (fun e => (d <? e)%Z) rest && strictly_ascending rest
  end.

(** *** [add_coords] of utils.py, on the frames of the analysis *)











(** Evaluation of the model on a given input, the operations on real
    numbers left as they stand. *)
Ltac evaluate :=
  lazy -[py_max seasonal_factor haversine Rplus Rmult Rminus Rdiv Ropp Rinv
         IZR INR].

(** ** Lemmas on the table and the sort *)

Lemma city_row_known (cities_df : list City) (name : string) :
  city_known cities_df name = true ->
  exists r, city_row cities_df name = inr r.
Proof.
  unfold city_known, city_row.
  induction cities_df as [|c cs IH]; simpl; [discriminate|].
  destruct (String.eqb (city c) name); simpl; eauto.
Qed.

Lemma city_row_unknown (cities_df : list City) (name : string) :
  city_known cities_df name = false ->
  city_row cities_df name = inl IndexError.
Proof.
  unfold city_known, city_row.
  induction cities_df as [|c cs IH]; simpl; [reflexivity|].
  destruct (String.eqb (city c) name); simpl; [discriminate|exact IH].
Qed.

Lemma city_row_inr_known (cities_df : list City) (name : string) (r : City) :
  city_row cities_df name = inr r -> city_known cities_df name = true.
Proof.
  intros H. destruct (city_known cities_df name) eqn:E; [reflexivity|].
  rewrite (city_row_unknown _ _ E) in H. discriminate.
Qed.

Lemma sort_values_snoc (l : list Game) (x : Game) :
  sort_values (l ++ [x]) = insert_by_date x (sort_values l).
Proof.
  unfold sort_values. rewrite rev_app_distr. reflexivity.
Qed.

Lemma insert_by_date_last (x : Game) (l : list Game) :
  forallb (fun h => (game_date h <=? game_date x)%Z) l = true ->
  insert_by_date x l = l ++ [x].
Proof.
  induction l as [|h t IH]; simpl; [reflexivity|].
  intros H. apply andb_prop in H. destruct H as [Hh Ht].
  apply Z.leb_le in Hh.
  destruct (Z.ltb_spec (game_date x) (game_date h)); [lia|].
  rewrite IH by assumption. reflexivity.
Qed.

Lemma chronological_snoc (l : list Game) (x : Game) :
  chronological (l ++ [x]) = true ->
  chronological l = true /\
  forallb (fun h => (game_date h <=? game_date x)%Z) l = true.
Proof.
  induction l as [|h t IH]; simpl; [auto|].
  intros H. apply andb_prop in H. destruct H as [Hh Ht].
  destruct (IH Ht) as [IH1 IH2].
  rewrite forallb_app in Hh. apply andb_prop in Hh. destruct Hh as [Hh1 Hh2].
  simpl in Hh2. rewrite andb_true_r in Hh2.
  rewrite Hh1, IH1, Hh2, IH2. auto.
Qed.

Lemma sort_values_chronological (games : list Game) :
  chronological games = true -> sort_values games = games.
Proof.
  induction games as [|x l IH] using rev_ind; [reflexivity|].
  intros H. apply chronological_snoc in H. destruct H as [H1 H2].
  rewrite sort_values_snoc, IH by assumption.
  apply insert_by_date_last. assumption.
Qed.

Lemma insert_by_date_In (x g : Game) (l : list Game) :
  In g (insert_by_date x l) <-> g = x \/ In g l.
Proof.
  induction l as [|h t IH]; simpl.
  - intuition congruence.
  - destruct (game_date x <? game_date h)%Z; simpl; rewrite ?IH;
      intuition congruence.
Qed.

Lemma sort_values_In (g : Game) (games : list Game) :
  In g (sort_values games) <-> In g games.
Proof.
  induction games as [|x l IH] using rev_ind; [reflexivity|].
  rewrite sort_values_snoc, insert_by_date_In, IH, in_app_iff.
  simpl. intuition congruence.
Qed.

(** ** The loop over the games *)

Lemma last_cons {A : Type} (a d : A) (l : list A) :
  last (a :: l) d = last l a.
Proof.
  revert a d. induction l as [|b t IH]; intros a d; [reflexivity|].
  change (last (a :: b :: t) d) with (last (b :: t) d).
  rewrite (IH b d), (IH b a). reflexivity.
Qed.

Lemma cursor_before_cons (base_city : string) (g x : Game)
  (rest : list Game) (j : nat) :
  nth_error rest j = Some x ->
  cursor_before base_city (g :: rest) (S j)
  = cursor_before (venue_city g) rest j.
Proof.
  intros H. destruct j as [|k]; [reflexivity|].
  unfold cursor_before.
  change (nth_error (g :: rest) (S k)) with (nth_error rest k).
  destruct (nth_error rest k) eqn:E; [reflexivity|].
  apply nth_error_None in E.
  assert (Hk : nth_error rest (S k) = None) by (apply nth_error_None; lia).
  congruence.
Qed.

(** One visit with both cities in the table. *)
Lemma visit_known (cities_df : list City) (st : Cursor) (g : Game) :
  city_known cities_df (prev_city st) = true ->
  city_known cities_df (venue_city g) = true ->
  exists added,
    visit cities_df st g
    = inr (mkCursor (legs st ++ added) (venue_city g) (Some (game_date g)))
    /\ emits cities_df (prev_city st) g added.
Proof.
  intros Hp Hv. unfold visit.
  destruct (String.eqb_spec (venue_city g) (prev_city st)) as [E|E]; simpl.
  - exists []. rewrite app_nil_r. split; [reflexivity|].
    split; [reflexivity|]. intros N; contradiction.
  - destruct (city_row_known _ _ Hp) as [fr Hfr].
    destruct (city_row_known _ _ Hv) as [tr Htr].
    rewrite Hfr, Htr. simpl.
    eexists. split; [reflexivity|].
    split; [intros N; contradiction|].
    intros _. eexists. split; [reflexivity|].
    exists fr, tr. auto.
Qed.

(** The loop from any state whose cursor is in the table, over games
    whose venues are all in the table: it ends, and each game added what
    [emits] says for the cursor it met. *)
Lemma iterrows_known (cities_df : list City) (df : list Game) :
  forall st : Cursor,
    city_known cities_df (prev_city st) = true ->
    forallb (city_known cities_df) (venues df) = true ->
    exists emitted : list (list Leg),
      iterrows cities_df st df
      = inr (mkCursor (legs st ++ List.concat emitted)
                      (last (venues df) (prev_city st))
                      (last (map (fun g => Some (game_date g)) df)
                            (prev_date st)))
      /\ List.length emitted = List.length df
      /\ forall i g, nth_error df i = Some g ->
           exists added, nth_error emitted i = Some added /\
             emits cities_df (cursor_before (prev_city st) df i) g added.
Proof.
  induction df as [|g rest IH]; intros st Hp Hv.
  - exists []. simpl. rewrite app_nil_r. destruct st; simpl.
    split; [reflexivity|]. split; [reflexivity|].
    intros [|i] g H; discriminate.
  - simpl in Hv. apply andb_prop in Hv. destruct Hv as [Hg Hrest].
    destruct (visit_known cities_df st g Hp Hg) as [added [Hvis Hem]].
    destruct (IH (mkCursor (legs st ++ added) (venue_city g)
                           (Some (game_date g))) Hg Hrest)
      as [emitted [Hrun [Hlen Hnth]]].
    exists (added :: emitted).
    split.
    + simpl iterrows. rewrite Hvis. simpl bind. rewrite Hrun.
      cbn [legs prev_city prev_date List.concat]. rewrite <- app_assoc.
      unfold venues. cbn [map]. rewrite !last_cons. reflexivity.
    + split; [simpl; congruence|].
      intros [|j] x Hx.
      * simpl in Hx. injection Hx as <-. exists added. split; [reflexivity|].
        exact Hem.
      * simpl in Hx. destruct (Hnth j x Hx) as [a [Ha1 Ha2]].
        exists a. split; [exact Ha1|].
        rewrite (cursor_before_cons _ _ x _ _ Hx). exact Ha2.
Qed.




(** ** The closing leg *)

Lemma rev_cons_app {A : Type} (l : list A) (x : A) (t : list A) :
  rev l = x :: t -> l = rev t ++ [x].
Proof.
  intros H. rewrite <- (rev_involutive l), H. reflexivity.
Qed.

(** ** The chain of legs *)

Lemma is_chain_snoc (start : string) (l : list Leg) (x : Leg) :
  is_chain start (l ++ [x])
  = is_chain start l
    && (String.eqb (from_city x) (chain_end start l)
        && negb (String.eqb (from_city x) (to_city x))).
Proof.
  revert start. induction l as [|h t IH]; intros start.
  - simpl. unfold chain_end. simpl. rewrite andb_true_r. reflexivity.
  - simpl. rewrite IH. unfold chain_end. cbn [map]. rewrite last_cons.
    rewrite !andb_assoc. reflexivity.
Qed.

Lemma chain_end_snoc (start : string) (l : list Leg) (x : Leg) :
  chain_end start (l ++ [x]) = to_city x.
Proof.
  unfold chain_end. rewrite map_app. simpl. apply last_last.
Qed.

Lemma visit_chain (cities_df : list City) (base_city : string)
  (st st' : Cursor) (g : Game) :
  is_chain base_city (legs st) = true ->
  chain_end base_city (legs st) = prev_city st ->
  visit cities_df st g = inr st' ->
  is_chain base_city (legs st') = true /\
  chain_end base_city (legs st') = prev_city st'.
Proof.
  intros Hc He. unfold visit.
  destruct (String.eqb_spec (venue_city g) (prev_city st)) as [E|E]; simpl.
  - intros H. injection H as <-. simpl. split; congruence.
  - destruct (city_row cities_df (prev_city st)); simpl; [discriminate|].
    destruct (city_row cities_df (venue_city g)); simpl; [discriminate|].
    intros H. injection H as <-. cbn [legs prev_city].
    rewrite is_chain_snoc, chain_end_snoc, Hc, He. cbn [from_city to_city].
    rewrite String.eqb_refl.
    destruct (String.eqb_spec (prev_city st) (venue_city g)); [congruence|].
    auto.
Qed.

Lemma iterrows_chain (cities_df : list City) (base_city : string)
  (df : list Game) :
  forall st st' : Cursor,
    is_chain base_city (legs st) = true ->
    chain_end base_city (legs st) = prev_city st ->
    iterrows cities_df st df = inr st' ->
    is_chain base_city (legs st') = true /\
    chain_end base_city (legs st') = prev_city st'.
Proof.
  induction df as [|g rest IH]; intros st st' Hc He; simpl.
  - intros H. injection H as <-. auto.
  - destruct (visit cities_df st g) as [e|st1] eqn:Ev; simpl; [discriminate|].
    destruct (visit_chain _ _ _ _ _ Hc He Ev) as [Hc1 He1].
    apply IH; assumption.
Qed.

(** C10. Every leg sequence returned by [compute_trip_legs] is a chain
    from the home base: the first leg leaves from the home base, each
    later leg leaves from the city where the leg before arrived, and no
    leg leaves from the city where it arrives. *)
Theorem compute_trip_legs_chain
  (games : list Game) (cities_df : list City) (base_city : string)
  (out : list Leg) :
  compute_trip_legs games cities_df base_city = inr out ->
  is_chain base_city out = true.
Proof.
  unfold compute_trip_legs.
  destruct (iterrows cities_df (mkCursor [] base_city None)
                     (sort_values games)) as [e|st] eqn:Erun;
    simpl; [discriminate|].
  destruct (iterrows_chain cities_df base_city _ (mkCursor [] base_city None)
                           st eq_refl eq_refl Erun) as [Hc He].
  unfold travel_home.
  destruct (String.eqb_spec (prev_city st) base_city) as [E|E]; simpl.
  - intros H. injection H as <-. exact Hc.
  - destruct (city_row cities_df (prev_city st)); simpl; [discriminate|].
    destruct (city_row cities_df base_city); simpl; [discriminate|].
    intros H. injection H as <-.
    rewrite is_chain_snoc, Hc, He. cbn [from_city to_city].
    rewrite String.eqb_refl.
    destruct (String.eqb_spec (prev_city st) base_city); [congruence|].
    reflexivity.
Qed.

Lemma compute_trip_legs_chain_witness :
  is_chain "Dallas"
    [ mkLeg (Some (ymd 2024 1 5)) "Dallas" "Denver"
            (haversine 32.78 (-96.80) 39.74 (-104.99));
      mkLeg (Some (ymd 2024 1 5)) "Denver" "Dallas"
            (haversine 39.74 (-104.99) 32.78 (-96.80)) ] = true.
Proof.
  apply (compute_trip_legs_chain example_games (example_cities "DFW" "DEN")).
  cbn. reflexivity.
Defined.

(** ** Cities missing from the table *)

Lemma iterrows_stay (cities_df : list City) (df : list Game) :
  forall st : Cursor,
    forallb (at_city (prev_city st)) df = true ->
    exists d, iterrows cities_df st df
              = inr (mkCursor (legs st) (prev_city st) d).
Proof.
  induction df as [|g rest IH]; intros st H; simpl.
  - exists (prev_date st). destruct st; reflexivity.
  - simpl in H. apply andb_prop in H. destruct H as [Hg Hrest].
    unfold visit. unfold at_city in Hg. rewrite Hg. simpl.
    apply String.eqb_eq in Hg. rewrite Hg.
    apply (IH (mkCursor (legs st) (prev_city st) (Some (game_date g)))).
    exact Hrest.
Qed.

Lemma iterrows_missing (cities_df : list City) (df : list Game) :
  forall st : Cursor,
    (city_known cities_df (prev_city st) = false /\
     exists g, In g df /\ venue_city g <> prev_city st) \/
    (city_known cities_df (prev_city st) = true /\
     exists g, In g df /\ city_known cities_df (venue_city g) = false) ->
    iterrows cities_df st df = inl IndexError.
Proof.
  induction df as [|g rest IH]; intros st H.
  - destruct H as [[_ [x [[] _]]]|[_ [x [[] _]]]].
  - simpl. unfold visit.
    destruct (String.eqb_spec (venue_city g) (prev_city st)) as [E|E]; simpl.
    + apply IH. cbn [prev_city]. rewrite E.
      destruct H as [[Hp [x [Hin Hx]]]|[Hp [x [Hin Hx]]]]; [left|right];
        (split; [exact Hp|]); exists x; (split; [|exact Hx]);
        destruct Hin as [->|Hin]; congruence || exact Hin.
    + destruct H as [[Hp _]|[Hp [x [Hin Hx]]]].
      * rewrite (city_row_unknown _ _ Hp). reflexivity.
      * destruct (city_row_known _ _ Hp) as [fr ->]. simpl.
        destruct (city_known cities_df (venue_city g)) eqn:Hg.
        -- destruct (city_row_known _ _ Hg) as [tr ->]. simpl.
           apply IH. right. cbn [prev_city]. split; [exact Hg|].
           exists x. split; [|exact Hx].
           destruct Hin as [->|Hin]; congruence || exact Hin.
        -- rewrite (city_row_unknown _ _ Hg). reflexivity.
Qed.

(** C4, as amended.  When at least one game is away from the home base
    and the home base or a venue city has no row in the coordinate
    table, [compute_trip_legs] raises [IndexError]; nothing catches it,
    and [main], run for that home base, stops with the same error.  When
    every game is at the home base no city is looked up, and the result
    is the empty list of legs whatever the table holds. *)
Theorem compute_trip_legs_missing_city
  (games : list Game) (cities_df : list City) (base_city : string) :
  (forallb (at_city base_city) games = true ->
   compute_trip_legs games cities_df base_city = inr []) /\
  (existsb (fun g => negb (at_city base_city g)) games = true ->
   existsb (fun name => negb (city_known cities_df name))
           (base_city :: venues games) = true ->
   compute_trip_legs games cities_df base_city = inl IndexError /\
   (base_city = Analysis.BASE_CITY ->
    forall (Generator : Type) (default_rng : Z -> Generator)
           (normal : Generator -> R -> R -> R * Generator),
      Analysis.main_locals Generator default_rng normal cities_df games
      = inl IndexError)).
Proof.
  split.
  - intros Hall. unfold compute_trip_legs.
    assert (Hs : forallb (at_city base_city) (sort_values games) = true).
    { apply forallb_forall. intros g Hg. apply (proj1 (sort_values_In _ _)) in Hg.
      exact (proj1 (forallb_forall _ _) Hall g Hg). }
    destruct (iterrows_stay cities_df (sort_values games)
                            (mkCursor [] base_city None) Hs) as [d ->].
    simpl. unfold travel_home. simpl. rewrite String.eqb_refl. reflexivity.
  - intros Haway Hmiss.
    assert (Hfail : compute_trip_legs games cities_df base_city
                    = inl IndexError).
    { unfold compute_trip_legs.
      apply existsb_exists in Haway. destruct Haway as [g [Hg Hne]].
      apply existsb_exists in Hmiss. destruct Hmiss as [name [Hin Hname]].
      apply negb_true_iff in Hname.
      rewrite (iterrows_missing cities_df (sort_values games)
                                (mkCursor [] base_city None)); [reflexivity|].
      cbn [prev_city].
      destruct (city_known cities_df base_city) eqn:Hb.
      - right. split; [reflexivity|].
        destruct Hin as [->|Hin]; [congruence|].
        unfold venues in Hin. apply in_map_iff in Hin.
        destruct Hin as [x [<- Hx]].
        exists x. split; [apply (proj2 (sort_values_In _ _)); exact Hx|exact Hname].
      - left. split; [reflexivity|].
        exists g. split; [apply (proj2 (sort_values_In _ _)); exact Hg|].
        unfold at_city in Hne. apply negb_true_iff in Hne.
        apply String.eqb_neq. exact Hne. }
    split; [exact Hfail|].
    intros -> Generator default_rng normal.
    unfold Analysis.main_locals. rewrite Hfail. reflexivity.
Qed.

Lemma compute_trip_legs_missing_city_witness :
  compute_trip_legs example_games [] "Dallas" = inl IndexError /\
  ("Dallas"%string = Analysis.BASE_CITY ->
   forall (Generator : Type) (default_rng : Z -> Generator)
          (normal : Generator -> R -> R -> R * Generator),
     Analysis.main_locals Generator default_rng normal [] example_games
     = inl IndexError).
Proof.
  exact (proj2 (compute_trip_legs_missing_city example_games [] "Dallas")
               eq_refl eq_refl).
Defined.

(** C4 as stated fails: a home game is the whole schedule, the table is
    empty, so both the home base and the venue are missing from it, and
    [compute_trip_legs] returns the empty list of legs without an
    error. *)
Lemma compute_trip_legs_missing_city_no_error :
  let games := [ mkGame (ymd 2024 1 5) "Dallas" ] in
  city_known [] "Dallas" = false /\
  In "Dallas"%string (venues games) /\
  compute_trip_legs games [] "Dallas" = inr [] /\
  compute_trip_legs games [] "Dallas" <> inl IndexError.
Proof.
  cbn. repeat split; auto. discriminate.
Qed.

(** ** The synthetic cost model *)

Section CostModelFacts.

Variable Generator : Type.
Variable default_rng : Z -> Generator.
Variable normal : Generator -> R -> R -> R * Generator.

Lemma py_max_floor (a b : R) : (a <= py_max a b)%R.
Proof.
  unfold py_max. destruct (Rlt_dec a b); lra.
Qed.

Lemma cost_loop_floor (rows : list (Timestamp * R)) :
  forall (rng : Generator) (costs : list R),
    Forall (fun c => (50 <= c)%R) costs ->
    Forall (fun c => (50 <= c)%R) (cost_loop Generator normal rng rows costs).
Proof.
  induction rows as [|[dt k] rest IH]; intros rng costs H; simpl; [exact H|].
  destruct (normal rng 0%R 25%R) as [noise rng'].
  apply IH. apply Forall_app. split; [exact H|].
  constructor; [apply py_max_floor|constructor].
Qed.

Lemma cost_loop_length (rows : list (Timestamp * R)) :
  forall (rng : Generator) (costs : list R),
    List.length (cost_loop Generator normal rng rows costs)
    = (List.length costs + List.length rows)%nat.
Proof.
  induction rows as [|[dt k] rest IH]; intros rng costs; simpl; [lia|].
  destruct (normal rng 0%R 25%R) as [noise rng'].
  rewrite IH, length_app. simpl. lia.
Qed.

Lemma combine_fst_snd {A B : Type} (l : list (A * B)) :
  combine (map fst l) (map snd l) = l.
Proof.
  induction l as [|[a b] t IH]; simpl; [reflexivity|]. rewrite IH. reflexivity.
Qed.

Lemma map_fst_combine {A B : Type} (l1 : list A) (l2 : list B) :
  List.length l1 = List.length l2 -> map fst (combine l1 l2) = l1.
Proof.
  revert l2. induction l1 as [|a t IH]; intros [|b u] H; simpl in *;
    try discriminate; [reflexivity|].
  rewrite IH by lia. reflexivity.
Qed.

Lemma Forall_snd_combine {A B : Type} (P : B -> Prop) (l1 : list A)
  (l2 : list B) :
  Forall P l2 -> Forall (fun p => P (snd p)) (combine l1 l2).
Proof.
  intros H. revert l1. induction H as [|b u Hb Hu IH]; intros [|a t]; simpl;
    constructor; auto.
Qed.

Lemma basic_cost_model_index (km_series : Series R) (seed : Z) :
  map fst (basic_cost_model Generator default_rng normal km_series seed)
  = map fst km_series.
Proof.
  unfold basic_cost_model.
  apply map_fst_combine. rewrite cost_loop_length, length_combine.
  rewrite !length_map. simpl. lia.
Qed.

(** C7. Every value of the series returned by [basic_cost_model] is at
    least 50.0, whatever the km values, the months of the index and the
    noise drawn; and the series has one value for each week of the
    input, under the same index. *)
Theorem basic_cost_model_floor (km_series : Series R) (seed : Z) :
  Forall (fun p => (50 <= snd p)%R)
         (basic_cost_model Generator default_rng normal km_series seed)
  /\ map fst (basic_cost_model Generator default_rng normal km_series seed)
     = map fst km_series.
Proof.
  split; [|apply basic_cost_model_index].
  unfold basic_cost_model.
  apply Forall_snd_combine. apply cost_loop_floor. constructor.
Qed.

Lemma cost_loop_closed (rng0 : Generator) (rows : list (Timestamp * R)) :
  forall (i : nat) (costs : list R),
    cost_loop Generator normal (generator_after Generator normal rng0 i)
              rows costs
    = costs ++ map snd (map_from (cost_of_row Generator normal rng0) i rows).
Proof.
  induction rows as [|[dt k] rest IH]; intros i costs; simpl.
  - rewrite app_nil_r. reflexivity.
  - destruct (normal (generator_after Generator normal rng0 i) 0%R 25%R)
      as [noise rng'] eqn:E.
    replace rng' with (generator_after Generator normal rng0 (S i))
      by (simpl; rewrite E; reflexivity).
    rewrite IH, <- app_assoc. simpl. unfold draw. rewrite E. reflexivity.
Qed.

Lemma map_from_fst (rng0 : Generator) (rows : list (Timestamp * R)) :
  forall i : nat,
    combine (map fst rows)
            (map snd (map_from (cost_of_row Generator normal rng0) i rows))
    = map_from (cost_of_row Generator normal rng0) i rows.
Proof.
  induction rows as [|[dt k] rest IH]; intros i; simpl; [reflexivity|].
  rewrite IH. reflexivity.
Qed.

(** C9. Two runs of [basic_cost_model] on the same km series with the
    same seed return the same cost series.  The series is a function of
    the input and of the seed alone: the cost of week number [i] is the
    floored sum of 0.12 km, the seasonal term of the week's month and
    draw number [i] of a generator built anew from the seed.  The call
    without a seed is the call with seed 0. *)
Theorem basic_cost_model_deterministic
  (km_series1 km_series2 : Series R) (seed1 seed2 : Z) :
  km_series1 = km_series2 ->
  seed1 = seed2 ->
  basic_cost_model Generator default_rng normal km_series1 seed1
  = basic_cost_model Generator default_rng normal km_series2 seed2
  /\ basic_cost_model Generator default_rng normal km_series1 seed1
     = map_from (cost_of_row Generator normal (default_rng seed1)) 0
                km_series1
  /\ basic_cost_model_default Generator default_rng normal km_series1
     = basic_cost_model Generator default_rng normal km_series1 0.
Proof.
  intros <- <-. split; [reflexivity|]. split; [|reflexivity].
  unfold basic_cost_model. rewrite combine_fst_snd.
  change (default_rng seed1)
    with (generator_after Generator normal (default_rng seed1) 0) at 1.
  rewrite cost_loop_closed. simpl. apply map_from_fst.
Qed.

End CostModelFacts.

Lemma basic_cost_model_deterministic_witness :
  let km_series := [ (ymd 2024 1 1, 0%R); (ymd 2024 1 8, 1000%R) ] in
  basic_cost_model nat counting_rng counting_normal km_series 7
  = basic_cost_model nat counting_rng counting_normal km_series 7
  /\ basic_cost_model nat counting_rng counting_normal km_series 7
     = map_from (cost_of_row nat counting_normal (counting_rng 7)) 0 km_series
  /\ basic_cost_model_default nat counting_rng counting_normal km_series
     = basic_cost_model nat counting_rng counting_normal km_series 0.
Proof.
  intro km_series.
  exact (basic_cost_model_deterministic nat counting_rng counting_normal
           km_series km_series 7 7 eq_refl eq_refl).
Defined.

(** ** The frame of legs *)

Lemma leg_records_columns (trip : list Leg) (l : Leg) :
  Analysis.DataFrame_of_records (map Analysis.leg_record (l :: trip))
  = Analysis.mkFrame leg_columns (map leg_cells (l :: trip)).
Proof.
  unfold Analysis.DataFrame_of_records.
  assert (Hcols : forall ls,
             fold_left (fun acc r => Analysis.add_labels acc (map fst r))
                       (map Analysis.leg_record ls) leg_columns
             = leg_columns).
  { induction ls as [|x xs IH]; [reflexivity|]. simpl map. simpl fold_left.
    exact IH. }
  change (fold_left (fun acc r => Analysis.add_labels acc (map fst r))
                    (map Analysis.leg_record (l :: trip)) [])
    with (fold_left (fun acc r => Analysis.add_labels acc (map fst r))
                    (map Analysis.leg_record trip) leg_columns).
  rewrite Hcols. f_equal. rewrite map_map. reflexivity.
Qed.

Lemma setitem_week (trip : list Leg) :
  Analysis.setitem (Analysis.mkFrame leg_columns (map leg_cells trip))
                   "week" (map Analysis.to_week_start (map date_cell trip))
  = Analysis.mkFrame (leg_columns ++ ["week"%string])
                     (map (fun l => leg_cells l ++ [week_cell l]) trip).
Proof.
  unfold Analysis.setitem. simpl Analysis.position. cbn [Analysis.columns Analysis.rows].
  f_equal. induction trip as [|l t IH]; [reflexivity|].
  simpl. f_equal. exact IH.
Qed.

Lemma getitem_date (trip : list Leg) :
  Analysis.getitem (Analysis.mkFrame leg_columns (map leg_cells trip)) "date"
  = inr (map date_cell trip).
Proof.
  unfold Analysis.getitem. simpl Analysis.position.
  cbn [Analysis.rows ret]. rewrite map_map. reflexivity.
Qed.

Lemma getitem_week (trip : list Leg) :
  Analysis.getitem
    (Analysis.mkFrame (leg_columns ++ ["week"%string])
                      (map (fun l => leg_cells l ++ [week_cell l]) trip))
    "week"
  = inr (map week_cell trip).
Proof.
  unfold Analysis.getitem. simpl Analysis.position.
  cbn [Analysis.rows ret]. rewrite map_map. reflexivity.
Qed.

Lemma getitem_km (trip : list Leg) :
  Analysis.getitem
    (Analysis.mkFrame (leg_columns ++ ["week"%string])
                      (map (fun l => leg_cells l ++ [week_cell l]) trip))
    "km"
  = inr (map (fun l => Analysis.Num (km l)) trip).
Proof.
  unfold Analysis.getitem. simpl Analysis.position.
  cbn [Analysis.rows ret]. rewrite map_map. reflexivity.
Qed.

Section MainFacts.

Variable Generator : Type.
Variable default_rng : Z -> Generator.
Variable normal : Generator -> R -> R -> R * Generator.

(** What a run of [main] that reaches the forecast went through. *)
Lemma main_locals_inv (df_cities : list City) (df_sched : list Game)
  (L : Analysis.Locals) :
  Analysis.main_locals Generator default_rng normal df_cities df_sched
  = inr L ->
  exists (l : Leg) (trip : list Leg),
    compute_trip_legs df_sched df_cities Analysis.BASE_CITY = inr (l :: trip)
    /\ Analysis.legs L
       = Analysis.mkFrame (leg_columns ++ ["week"%string])
           (map (fun x => leg_cells x ++ [week_cell x]) (l :: trip))
    /\ Analysis.ts_km_weekly L
       = Analysis.groupby_sum (map week_cell (l :: trip))
           (map (fun x => Analysis.Num (km x)) (l :: trip))
    /\ Analysis.cost_series L
       = basic_cost_model_default Generator default_rng normal
           (Analysis.ts_km_weekly L)
    /\ Analysis.date_range_of (Analysis.ts_km_weekly L)
       = inr (Analysis.weekly_index L)
    /\ Analysis.km L
       = Analysis.fillna
           (Analysis.reindex (Analysis.ts_km_weekly L)
                             (Analysis.weekly_index L)) 0%R
    /\ Analysis.cost L
       = Analysis.interpolate
           (Analysis.reindex (Analysis.cost_series L)
                             (Analysis.weekly_index L))
    /\ Analysis.split L
       = (if (10 <? List.length (Analysis.weekly_index L))%nat
          then (-8)%Z else (-2)%Z)
    /\ Analysis.train_cost L = Analysis.iloc_to (Analysis.split L)
                                                (Analysis.cost L)
    /\ Analysis.test_cost L = Analysis.iloc_from (Analysis.split L)
                                                 (Analysis.cost L)
    /\ Analysis.train_km L = Analysis.iloc_to (Analysis.split L)
                                              (Analysis.km L)
    /\ Analysis.test_km L = Analysis.iloc_from (Analysis.split L)
                                               (Analysis.km L)
    /\ Analysis.horizon L = (List.length (Analysis.test_cost L) + 12)%nat
    /\ Analysis.concat_future (Analysis.test_km L)
       = inr (Analysis.exog_future L).
Proof.
  unfold Analysis.main_locals.
  destruct (compute_trip_legs df_sched df_cities Analysis.BASE_CITY)
    as [e|[|l trip]]; cbn [bind]; [discriminate|discriminate|].
  rewrite leg_records_columns, getitem_date. cbn [bind].
  rewrite setitem_week, getitem_week. cbn [bind].
  rewrite getitem_km. cbn [bind].
  destruct (Analysis.date_range_of _) as [e|idx] eqn:Eidx; cbn [bind];
    [discriminate|].
  destruct (Analysis.concat_future _) as [e|fut] eqn:Efut; cbn [bind];
    [discriminate|].
  intros H. injection H as <-.
  exists l, trip. cbn.
  repeat (split; [reflexivity || assumption|]). assumption.
Qed.

End MainFacts.

(** ** Weeks and the weekly grid *)

Lemma weekday_week_start_time (t : Timestamp) :
  weekday (week_start_time t) = 0%Z.
Proof.
  unfold week_start_time, weekday. Z.div_mod_to_equations. lia.
Qed.

Lemma weekday_date_range_W (lo hi t : Timestamp) :
  In t (date_range_W lo hi) -> weekday t = 6%Z.
Proof.
  unfold date_range_W.
  destruct (hi <? rollforward_W lo)%Z; [intros []|].
  unfold weekly_from. intros H. apply in_map_iff in H.
  destruct H as [i [<- _]].
  unfold rollforward_W, weekday. Z.div_mod_to_equations. lia.
Qed.

Lemma add_to_group_keys (P : Timestamp -> Prop) (w : Timestamp) (x : R)
  (s : Series R) :
  P w -> Forall (fun p => P (fst p)) s ->
  Forall (fun p => P (fst p)) (Analysis.add_to_group w x s).
Proof.
  intros Hw H. induction H as [|[w' y] t Hh Ht IH]; simpl.
  - constructor; [exact Hw|constructor].
  - destruct (w <? w')%Z; [constructor; [exact Hw|constructor; assumption]|].
    destruct (w =? w')%Z; constructor; assumption.
Qed.

Lemma groupby_sum_keys (P : Timestamp -> Prop)
  (keys vals : list Analysis.cell) :
  Forall (key_satisfies P) keys ->
  Forall (fun p => P (fst p)) (Analysis.groupby_sum keys vals).
Proof.
  unfold Analysis.groupby_sum. intros H.
  assert (G : forall kv acc,
             Forall (fun kv => key_satisfies P (fst kv)) kv ->
             Forall (fun p => P (fst p)) acc ->
             Forall (fun p => P (fst p))
               (fold_left
                  (fun acc kv =>
                     match kv with
                     | (Analysis.Stamp w, Analysis.Num x) =>
                         Analysis.add_to_group w x acc
                     | (Analysis.Stamp w, _) =>
                         Analysis.add_to_group w 0%R acc
                     | _ => acc
                     end) kv acc)).
  { induction kv as [|[k v] rest IH]; intros acc Hk Ha; simpl; [exact Ha|].
    inversion Hk as [|? ? Hk1 Hk2]; subst. apply IH; [exact Hk2|].
    destruct k; try exact Ha.
    destruct v; apply add_to_group_keys; assumption. }
  apply G; [|constructor].
  revert vals. induction H as [|k ks Hk Hks IH]; intros [|v vs]; simpl;
    constructor; auto.
Qed.

Lemma week_cells_monday (trip : list Leg) :
  Forall (key_satisfies (fun w => weekday w = 0%Z)) (map week_cell trip).
Proof.
  apply Forall_forall. intros c H. apply in_map_iff in H.
  destruct H as [l [<- _]]. unfold week_cell, date_cell.
  destruct (date l); simpl; [apply weekday_week_start_time|exact I].
Qed.

Lemma loc_absent {A : Type} (s : Series A) (t : Timestamp) :
  ~ In t (Analysis.index s) -> Analysis.loc s t = None.
Proof.
  unfold Analysis.loc, Analysis.index.
  induction s as [|[w x] rest IH]; simpl; [reflexivity|].
  intros H. destruct (Z.eqb_spec w t) as [E|E]; [tauto|].
  apply IH. tauto.
Qed.

Lemma reindex_absent {A : Type} (s : Series A) (idx : list Timestamp) :
  (forall t, In t idx -> ~ In t (Analysis.index s)) ->
  Analysis.reindex s idx = map (fun t => (t, None)) idx.
Proof.
  intros H. unfold Analysis.reindex. apply map_ext_in.
  intros t Ht. rewrite (loc_absent s t (H t Ht)). reflexivity.
Qed.

Lemma interpolate_values_all_nan (l : list (option R)) :
  Forall (fun x => x = None) l -> Analysis.interpolate_values None l = l.
Proof.
  induction 1 as [|x t Hx Ht IH]; simpl; [reflexivity|].
  subst x. rewrite IH. reflexivity.
Qed.

Lemma combine_map_map {A B C : Type} (f : A -> B) (g : A -> C)
  (l : list A) :
  combine (map f l) (map g l) = map (fun x => (f x, g x)) l.
Proof.
  induction l as [|a t IH]; simpl; [reflexivity|]. rewrite IH. reflexivity.
Qed.

Lemma date_range_of_nonempty {A : Type} (s : Series A)
  (idx : list Timestamp) :
  Analysis.date_range_of s = inr idx ->
  s <> [] /\
  exists lo hi, idx = date_range_W lo hi.
Proof.
  unfold Analysis.date_range_of, Analysis.index_min, Analysis.index_max,
    Analysis.index.
  destruct s as [|p rest]; simpl; [discriminate|].
  intros H. injection H as <-. split; [discriminate|eauto].
Qed.

Section MainProperties.

Variable Generator : Type.
Variable default_rng : Z -> Generator.
Variable normal : Generator -> R -> R -> R * Generator.

(** C1, what the code does.  In every run of [main] that reaches the
    forecast, each week of the weekly-km series is a Monday and each
    point of the weekly grid is a Sunday: no week of the km series is a
    point of the grid.  The km series on the grid is therefore 0.0 at
    every point, and the cost series on the grid is NaN at every point,
    though the weekly-km series is not empty. *)
Theorem main_weekly_grid_misses_every_week
  (df_cities : list City) (df_sched : list Game) (L : Analysis.Locals) :
  Analysis.main_locals Generator default_rng normal df_cities df_sched
  = inr L ->
  Analysis.ts_km_weekly L <> []
  /\ Forall (fun w => weekday w = 0%Z /\ ~ In w (Analysis.weekly_index L))
            (Analysis.index (Analysis.ts_km_weekly L))
  /\ Forall (fun t => weekday t = 6%Z) (Analysis.weekly_index L)
  /\ Analysis.km L = map (fun t => (t, 0%R)) (Analysis.weekly_index L)
  /\ Analysis.cost L = map (fun t => (t, None)) (Analysis.weekly_index L).
Proof.
  intros H. destruct (main_locals_inv _ _ _ _ _ _ H)
    as (l & trip & _ & _ & Hts & Hcs & Hidx & Hkm & Hcost & _).
  destruct (date_range_of_nonempty _ _ Hidx) as [Hne [lo [hi Hgrid]]].
  assert (Hsun : forall t, In t (Analysis.weekly_index L) -> weekday t = 6%Z).
  { intros t Ht. rewrite Hgrid in Ht.
    exact (weekday_date_range_W _ _ _ Ht). }
  assert (Hmon : Forall (fun p => weekday (fst p) = 0%Z)
                        (Analysis.ts_km_weekly L)).
  { rewrite Hts.
    apply (groupby_sum_keys (fun w => weekday w = 0%Z)).
    apply week_cells_monday. }
  assert (Hdisj : forall t, In t (Analysis.weekly_index L) ->
                            ~ In t (Analysis.index (Analysis.ts_km_weekly L))).
  { intros t Ht Hin. unfold Analysis.index in Hin. apply in_map_iff in Hin.
    destruct Hin as [p [Hp Hin]].
    rewrite Forall_forall in Hmon. specialize (Hmon p Hin).
    rewrite Hp in Hmon. specialize (Hsun t Ht). lia. }
  split; [exact Hne|]. split.
  { apply Forall_forall. intros w Hw. split.
    - unfold Analysis.index in Hw. apply in_map_iff in Hw.
      destruct Hw as [p [<- Hin]].
      rewrite Forall_forall in Hmon. exact (Hmon p Hin).
    - intros Hin. exact (Hdisj w Hin Hw). }
  split; [apply Forall_forall; exact Hsun|]. split.
  - rewrite Hkm, (reindex_absent _ _ Hdisj). unfold Analysis.fillna.
    rewrite map_map. reflexivity.
  - rewrite Hcost, reindex_absent.
    + unfold Analysis.interpolate, Analysis.index, Analysis.values.
      rewrite interpolate_values_all_nan.
      * rewrite !map_map. cbn [fst snd]. apply combine_map_map.
      * apply Forall_forall. intros x Hx. rewrite map_map in Hx.
        apply in_map_iff in Hx. destruct Hx as [t [<- _]]. reflexivity.
    + intros t Ht. rewrite Hcs. unfold basic_cost_model_default.
      unfold Analysis.index.
      rewrite (basic_cost_model_index Generator default_rng normal
                 (Analysis.ts_km_weekly L) 0%Z).
      exact (Hdisj t Ht).
Qed.

Lemma length_interpolate_values (l : list (option R)) :
  forall prev, List.length (Analysis.interpolate_values prev l)
               = List.length l.
Proof.
  induction l as [|[w|] t IH]; intros prev; simpl; [reflexivity| |].
  - rewrite IH. reflexivity.
  - destruct prev; simpl; rewrite IH; reflexivity.
Qed.

Lemma length_interpolate (s : Series (option R)) :
  List.length (Analysis.interpolate s) = List.length s.
Proof.
  unfold Analysis.interpolate, Analysis.index, Analysis.values.
  rewrite length_combine, length_interpolate_values, !length_map. lia.
Qed.

Lemma concat_future_inv (test_km fut : Series R) :
  Analysis.concat_future test_km = inr fut ->
  test_km <> [] /\
  exists future_index,
    List.length future_index = 12%nat /\
    fut = test_km ++ combine future_index (repeat 0%R 12).
Proof.
  unfold Analysis.concat_future.
  destruct (rev (Analysis.index test_km)) as [|last t] eqn:E;
    [discriminate|].
  intros H. injection H as <-. split.
  - intros ->. discriminate.
  - exists (date_range_W_periods (last + 7)%Z 12). split; reflexivity.
Qed.

End MainProperties.

(** ** Runs of [main] on the schedule of three games *)

Lemma main_weekly_grid_misses_every_week_witness :
  exists L,
    Analysis.main_locals nat counting_rng counting_normal
      (example_cities "DFW" "DEN") three_week_games = inr L
    /\ Analysis.ts_km_weekly L <> []
    /\ Forall (fun w => weekday w = 0%Z /\ ~ In w (Analysis.weekly_index L))
              (Analysis.index (Analysis.ts_km_weekly L))
    /\ Forall (fun t => weekday t = 6%Z) (Analysis.weekly_index L)
    /\ Analysis.km L = map (fun t => (t, 0%R)) (Analysis.weekly_index L)
    /\ Analysis.cost L = map (fun t => (t, None)) (Analysis.weekly_index L).
Proof.
  eexists. split; [evaluate; reflexivity|].
  apply (main_weekly_grid_misses_every_week nat counting_rng counting_normal
           (example_cities "DFW" "DEN") three_week_games).
  evaluate. reflexivity.
Defined.

(** The weeks of the km series of that run are 2024-01-01, 2024-01-08 and
    2024-01-15; the grid is 2024-01-07 and 2024-01-14, with 0.0 km at
    both. *)
Lemma three_week_run_grid :
  exists L,
    Analysis.main_locals nat counting_rng counting_normal
      (example_cities "DFW" "DEN") three_week_games = inr L
    /\ Analysis.index (Analysis.ts_km_weekly L)
       = [ ymd 2024 1 1; ymd 2024 1 8; ymd 2024 1 15 ]
    /\ Analysis.weekly_index L = [ ymd 2024 1 7; ymd 2024 1 14 ]
    /\ Analysis.km L = [ (ymd 2024 1 7, 0%R); (ymd 2024 1 14, 0%R) ].
Proof.
  eexists. split; [evaluate; reflexivity|].
  repeat split; evaluate; reflexivity.
Qed.

(** ** The distance of the example *)

Section Distance.
Local Open Scope R_scope.

Lemma PI_bounds : 3.14159 < PI < 3.1416.
Proof.
  pose proof (PI_2_3_7_ineq 2) as H.
  unfold sum_f_R0, tg_alt, PI_2_3_7_tg, Ratan_seq in H.
  simpl in H. lra.
Qed.

Lemma sin_taylor (x : R) :
  0 <= x <= 4 ->
  x - x ^ 3 / 6 <= sin x <= x - x ^ 3 / 6 + x ^ 5 / 120.
Proof.
  intros [H0 H4]. pose proof (pre_sin_bound x 0 H0 H4) as H.
  unfold sin_approx, sin_term, sum_f_R0 in H. simpl in H. lra.
Qed.

Lemma cos_taylor (x : R) :
  -2 <= x <= 2 ->
  1 - x ^ 2 / 2 + x ^ 4 / 24 - x ^ 6 / 720 <= cos x <= 1 - x ^ 2 / 2 + x ^ 4 / 24.
Proof.
  intros [H0 H4].
  pose proof (pre_cos_bound x 0 H0 H4) as [_ Hu].
  pose proof (pre_cos_bound x 1 H0 H4) as [Hl _].
  unfold cos_approx, cos_term, sum_f_R0 in Hu, Hl.
  simpl in Hu, Hl. lra.
Qed.

Lemma pow_between (l x u : R) (n : nat) :
  0 <= l -> l <= x <= u -> l ^ n <= x ^ n <= u ^ n.
Proof.
  intros Hl [H1 H2]. split; apply pow_incr; lra.
Qed.

Lemma mult_between (a b c d x y : R) :
  0 <= a -> 0 <= c -> a <= x <= b -> c <= y <= d ->
  a * c <= x * y <= b * d.
Proof.
  intros Ha Hc [H1 H2] [H3 H4]. split; apply Rmult_le_compat; lra.
Qed.

Lemma sin_between (l x u : R) :
  0 <= l -> l <= x <= u -> u <= 4 ->
  l - u ^ 3 / 6 <= sin x <= u - l ^ 3 / 6 + u ^ 5 / 120.
Proof.
  intros Hl Hx Hu.
  pose proof (sin_taylor x ltac:(lra)) as Ht.
  pose proof (pow_between l x u 3 Hl Hx).
  pose proof (pow_between l x u 5 Hl Hx).
  lra.
Qed.

Lemma cos_between (l x u : R) :
  0 <= l -> l <= x <= u -> u <= 2 ->
  1 - u ^ 2 / 2 + l ^ 4 / 24 - u ^ 6 / 720 <= cos x
  <= 1 - l ^ 2 / 2 + u ^ 4 / 24.
Proof.
  intros Hl Hx Hu.
  pose proof (cos_taylor x ltac:(lra)) as Ht.
  pose proof (pow_between l x u 2 Hl Hx).
  pose proof (pow_between l x u 4 Hl Hx).
  pose proof (pow_between l x u 6 Hl Hx).
  lra.
Qed.

Lemma asin_between (lo hi s : R) :
  0 <= lo <= 1 -> 0 <= hi <= 1 -> 0 <= s <= 1 ->
  sin lo < s < sin hi ->
  lo < asin s < hi.
Proof.
  intros Hlo Hhi Hs [H1 H2].
  pose proof PI2_1 as Hpi.
  pose proof (asin_bound s) as Hb.
  pose proof (sin_asin s ltac:(lra)) as Hsa.
  split.
  - destruct (Rlt_dec lo (asin s)) as [|N]; [assumption|].
    exfalso.
    assert (sin (asin s) <= sin lo) by (apply sin_incr_1; lra).
    lra.
  - destruct (Rlt_dec (asin s) hi) as [|N]; [assumption|].
    exfalso.
    assert (sin hi <= sin (asin s)) by (apply sin_incr_1; lra).
    lra.
Qed.

Lemma haversine_dallas_denver :
  1065 < haversine 32.78 (-96.80) 39.74 (-104.99) < 1067.
Proof.
  pose proof PI_bounds as [Hp1 Hp2].
  unfold haversine, radians.
  replace ((39.74 - 32.78) * (PI / 180) / 2) with (29 / 1500 * PI) by lra.
  replace ((-104.99 - -96.80) * (PI / 180) / 2) with (- (91 / 4000 * PI))
    by lra.
  replace (32.78 * (PI / 180)) with (1639 / 9000 * PI) by lra.
  replace (39.74 * (PI / 180)) with (1987 / 9000 * PI) by lra.
  rewrite sin_neg.
  replace ((- sin (91 / 4000 * PI)) ^ 2) with (sin (91 / 4000 * PI) ^ 2)
    by ring.
  pose proof (sin_between (29 / 1500 * 3.14159) (29 / 1500 * PI)
                          (29 / 1500 * 3.1416)
                ltac:(lra) ltac:(lra) ltac:(lra)) as Hs1.
  pose proof (sin_between (91 / 4000 * 3.14159) (91 / 4000 * PI)
                          (91 / 4000 * 3.1416)
                ltac:(lra) ltac:(lra) ltac:(lra)) as Hs2.
  pose proof (cos_between (1639 / 9000 * 3.14159) (1639 / 9000 * PI)
                          (1639 / 9000 * 3.1416)
                ltac:(lra) ltac:(lra) ltac:(lra)) as Hc1.
  pose proof (cos_between (1987 / 9000 * 3.14159) (1987 / 9000 * PI)
                          (1987 / 9000 * 3.1416)
                ltac:(lra) ltac:(lra) ltac:(lra)) as Hc2.
  set (s1 := sin (29 / 1500 * PI)) in *.
  set (s2 := sin (91 / 4000 * PI)) in *.
  set (c1 := cos (1639 / 9000 * PI)) in *.
  set (c2 := cos (1987 / 9000 * PI)) in *.
  assert (Hs1' : 0.0607 <= s1 <= 0.060701) by lra.
  assert (Hs2' : 0.07141 <= s2 <= 0.071411) by lra.
  assert (Hc1' : 0.84075 <= c1 <= 0.84081) by lra.
  assert (Hc2' : 0.76895 <= c2 <= 0.76911) by lra.
  clear Hs1 Hs2 Hc1 Hc2.
  assert (Hq1 := pow_between 0.0607 s1 0.060701 2 ltac:(lra) Hs1').
  assert (Hq2 := pow_between 0.07141 s2 0.071411 2 ltac:(lra) Hs2').
  assert (Hcc := mult_between 0.84075 0.84081 0.76895 0.76911 c1 c2
                   ltac:(lra) ltac:(lra) Hc1' Hc2').
  assert (Hcs := mult_between (0.84075 * 0.76895) (0.84081 * 0.76911)
                   (0.07141 ^ 2) (0.071411 ^ 2) (c1 * c2) (s2 ^ 2)
                   ltac:(lra) ltac:(lra) Hcc Hq2).
  set (a := s1 ^ 2 + c1 * c2 * s2 ^ 2) in *.
  assert (Ha : 0.006981 <= a <= 0.0069825) by (unfold a; lra).
  clearbody a. clear Hq1 Hq2 Hcc Hcs Hs1' Hs2' Hc1' Hc2' s1 s2 c1 c2.
  assert (Hsq : 0.08355 < sqrt a < 0.083562).
  { split.
    - replace 0.08355 with (sqrt (0.08355 ^ 2)) by (apply sqrt_pow2; lra).
      apply sqrt_lt_1; lra.
    - replace 0.083562 with (sqrt (0.083562 ^ 2)) by (apply sqrt_pow2; lra).
      apply sqrt_lt_1; lra. }
  set (s := sqrt a) in *. clearbody s.
  pose proof (sin_taylor (1065 / 12742) ltac:(lra)) as [_ Hlo].
  pose proof (sin_taylor (1067 / 12742) ltac:(lra)) as [Hhi _].
  pose proof (asin_between (1065 / 12742) (1067 / 12742) s
                ltac:(lra) ltac:(lra) ltac:(lra) ltac:(lra)) as Has.
  lra.
Qed.

Lemma haversine_sym (lat1 lon1 lat2 lon2 : R) :
  haversine lat1 lon1 lat2 lon2 = haversine lat2 lon2 lat1 lon1.
Proof.
  unfold haversine, radians. do 3 f_equal.
  replace ((lat2 - lat1) * (PI / 180) / 2)
    with (- ((lat1 - lat2) * (PI / 180) / 2)) by lra.
  replace ((lon2 - lon1) * (PI / 180) / 2)
    with (- ((lon1 - lon2) * (PI / 180) / 2)) by lra.
  rewrite !sin_neg. ring.
Qed.

End Distance.

(** C6, as amended.  For the home base Dallas at (32.78, -96.80) and one
    game at Denver at (39.74, -104.99) on 2024-01-05, whatever the
    airport codes of the table, [compute_trip_legs] returns exactly two
    legs, Dallas to Denver and Denver to Dallas, both dated 2024-01-05,
    with the same km, which is the haversine distance of the two cities
    and lies between 1065 and 1067. *)
Theorem compute_trip_legs_dallas_denver (airport1 airport2 : string) :
  exists k : R,
    compute_trip_legs example_games (example_cities airport1 airport2)
                      "Dallas"
    = inr [ mkLeg (Some (ymd 2024 1 5)) "Dallas" "Denver" k;
            mkLeg (Some (ymd 2024 1 5)) "Denver" "Dallas" k ]
    /\ k = haversine 32.78 (-96.80) 39.74 (-104.99)
    /\ (1065 < k < 1067)%R.
Proof.
  exists (haversine 32.78 (-96.80) 39.74 (-104.99)).
  split; [|split; [reflexivity|exact haversine_dallas_denver]].
  rewrite (haversine_sym 32.78 (-96.80) 39.74 (-104.99)) at 2.
  evaluate. reflexivity.
Qed.

Lemma compute_trip_legs_dallas_denver_value :
  compute_trip_legs example_games (example_cities "DFW" "DEN") "Dallas"
  = inr [ mkLeg (Some (ymd 2024 1 5)) "Dallas" "Denver"
                (haversine 32.78 (-96.80) 39.74 (-104.99));
          mkLeg (Some (ymd 2024 1 5)) "Denver" "Dallas"
                (haversine 32.78 (-96.80) 39.74 (-104.99)) ]
  /\ (1065 < haversine 32.78 (-96.80) 39.74 (-104.99))%R
  /\ (haversine 32.78 (-96.80) 39.74 (-104.99) < 1067)%R.
Proof.
  split; [|exact haversine_dallas_denver].
  rewrite (haversine_sym 32.78 (-96.80) 39.74 (-104.99)) at 2.
  evaluate. reflexivity.
Qed.

(** C6 as stated fails: the km of both legs of the example is above
    1065, not in the range from 875 to 880. *)
Lemma dallas_denver_km_not_875_880 :
  exists l1 l2 : Leg,
    compute_trip_legs example_games (example_cities "DFW" "DEN") "Dallas"
    = inr [l1; l2]
    /\ km l1 = km l2
    /\ (1065 < km l1)%R
    /\ ~ (875 <= km l1 <= 880)%R
    /\ ~ (875 <= km l2 <= 880)%R.
Proof.
  destruct (compute_trip_legs_dallas_denver_value) as [H [H1 H2]].
  do 2 eexists. split; [exact H|]. cbn [km].
  repeat split; lra.
Qed.

(** ** More on the distance function *)

Section DistanceFacts.
Local Open Scope R_scope.

Lemma haversine_unfold (lat1 lon1 lat2 lon2 : R) :
  haversine lat1 lon1 lat2 lon2
  = 2 * 6371 * asin (sqrt (haversine_a lat1 lon1 lat2 lon2)).
Proof. reflexivity. Qed.

(** X1. The distance does not depend on the direction of travel:
    [haversine] of A and B is [haversine] of B and A. *)
Theorem haversine_symmetric (lat1 lon1 lat2 lon2 : R) :
  haversine lat1 lon1 lat2 lon2 = haversine lat2 lon2 lat1 lon1.
Proof.
  apply haversine_sym.
Qed.

(** X2. The distance from a point to itself is 0. *)
Theorem haversine_same_point (lat lon : R) :
  haversine lat lon lat lon = 0.
Proof.
  rewrite haversine_unfold. unfold haversine_a, radians.
  replace ((lat - lat) * (PI / 180) / 2) with 0 by lra.
  replace ((lon - lon) * (PI / 180) / 2) with 0 by lra.
  rewrite sin_0.
  replace (0 ^ 2 + cos (lat * (PI / 180)) * cos (lat * (PI / 180)) * 0 ^ 2)
    with 0 by ring.
  rewrite sqrt_0, asin_0. ring.
Qed.

Lemma cos_radians_nonneg (lat : R) :
  -90 <= lat <= 90 -> 0 <= cos (radians lat).
Proof.
  intros H. pose proof PI_RGT_0 as Hpi.
  apply cos_ge_0; unfold radians; nra.
Qed.

Lemma cos_cos_le_cos2_half (x y : R) :
  cos x * cos y <= (cos ((y - x) / 2)) ^ 2.
Proof.
  pose proof (cos_plus x y) as Hp.
  pose proof (cos_minus y x) as Hm.
  pose proof (COS_bound (x + y)) as [_ Hb].
  pose proof (cos_2a_cos ((y - x) / 2)) as H2.
  replace (2 * ((y - x) / 2)) with (y - x) in H2 by lra.
  replace (cos ((y - x) / 2) ^ 2)
    with (cos ((y - x) / 2) * cos ((y - x) / 2)) by ring.
  nra.
Qed.

Lemma haversine_a_range (lat1 lon1 lat2 lon2 : R) :
  -90 <= lat1 <= 90 -> -90 <= lat2 <= 90 ->
  0 <= haversine_a lat1 lon1 lat2 lon2 <= 1.
Proof.
  intros H1 H2. unfold haversine_a.
  pose proof (cos_radians_nonneg lat1 H1) as Hc1.
  pose proof (cos_radians_nonneg lat2 H2) as Hc2.
  pose proof (cos_cos_le_cos2_half (radians lat1) (radians lat2)) as Hcc.
  replace ((radians lat2 - radians lat1) / 2)
    with (radians (lat2 - lat1) / 2) in Hcc by (unfold radians; lra).
  set (A := radians (lat2 - lat1) / 2) in *.
  set (B := radians (lon2 - lon1) / 2).
  pose proof (sin2_cos2 A) as Hsc. unfold Rsqr in Hsc.
  pose proof (SIN_bound B) as [Hb1 Hb2].
  assert (Hs2 : 0 <= sin B ^ 2 <= 1) by nra.
  assert (Hsa : 0 <= sin A ^ 2) by nra.
  assert (Hprod : 0 <= cos (radians lat1) * cos (radians lat2))
    by (apply Rmult_le_pos; assumption).
  set (p := cos (radians lat1) * cos (radians lat2)) in *.
  split; [nra|].
  assert (p * sin B ^ 2 <= p) by nra.
  nra.
Qed.

Lemma asin_nonneg (x : R) : 0 <= x <= 1 -> 0 <= asin x.
Proof.
  intros Hx.
  pose proof (asin_bound x) as [Hl Hu].
  pose proof (sin_asin x ltac:(lra)) as Hs.
  pose proof PI_RGT_0 as Hpi.
  destruct (Rle_dec 0 (asin x)) as [|N]; [assumption|].
  exfalso.
  assert (sin (asin x) < 0) by (apply sin_lt_0_var; lra).
  lra.
Qed.

Lemma haversine_bounds (lat1 lon1 lat2 lon2 : R) :
  -90 <= lat1 <= 90 -> -90 <= lat2 <= 90 ->
  0 <= haversine_a lat1 lon1 lat2 lon2 <= 1
  /\ 0 <= haversine lat1 lon1 lat2 lon2 <= 6371 * PI.
Proof.
  intros H1 H2.
  pose proof (haversine_a_range lat1 lon1 lat2 lon2 H1 H2) as Ha.
  split; [exact Ha|].
  rewrite haversine_unfold.
  set (a := haversine_a lat1 lon1 lat2 lon2) in *.
  assert (Hs : 0 <= sqrt a <= 1).
  { split; [apply sqrt_pos|].
    rewrite <- sqrt_1. apply sqrt_le_1; lra. }
  pose proof (asin_nonneg (sqrt a) Hs) as Hn.
  pose proof (asin_bound (sqrt a)) as [_ Hu].
  split; lra.
Qed.

(** X3. For latitudes between -90 and 90 degrees, the distance lies
    between 0 and half the circumference of the sphere, 6371 pi km. *)
Theorem haversine_range (lat1 lon1 lat2 lon2 : R) :
  -90 <= lat1 <= 90 -> -90 <= lat2 <= 90 ->
  0 <= haversine lat1 lon1 lat2 lon2 <= 6371 * PI.
Proof.
  intros H1 H2. apply haversine_bounds; assumption.
Qed.

Lemma haversine_range_witness :
  0 <= haversine 32.78 (-96.80) 39.74 (-104.99) <= 6371 * PI.
Proof.
  apply (haversine_range 32.78 (-96.80) 39.74 (-104.99)); lra.
Defined.

End DistanceFacts.

(** ** More on the trip legs *)

Lemma city_row_In (cities_df : list City) (name : string) (r : City) :
  city_row cities_df name = inr r -> In r cities_df /\ city r = name.
Proof.
  unfold city_row.
  destruct (filter (fun r => String.eqb (city r) name) cities_df)
    as [|h t] eqn:E; [discriminate|].
  intros H. injection H as <-.
  assert (Hin : In h (filter (fun r => String.eqb (city r) name) cities_df))
    by (rewrite E; left; reflexivity).
  apply filter_In in Hin. destruct Hin as [Hin Heq].
  apply String.eqb_eq in Heq. auto.
Qed.

Lemma visit_of_schedule (cities_df : list City) (all : list Game)
  (base_city : string) (st st' : Cursor) (g : Game) :
  In g all ->
  cursor_of_schedule cities_df all base_city st ->
  visit cities_df st g = inr st' ->
  cursor_of_schedule cities_df all base_city st' /\
  (List.length (legs st') <= List.length (legs st) + 1)%nat.
Proof.
  intros Hg (Hlegs & Hprev & Hdate). unfold visit.
  assert (Hv : In (venue_city g) (base_city :: venues all)).
  { right. unfold venues. apply in_map. exact Hg. }
  destruct (String.eqb_spec (venue_city g) (prev_city st)) as [E|E];
    cbn [negb].
  - cbn [bind ret]. intros H. injection H as <-. cbn [legs prev_city prev_date].
    split; [|lia]. split; [exact Hlegs|]. split; [exact Hv|].
    exists g. auto.
  - destruct (city_row cities_df (prev_city st)) as [e|fr] eqn:Efr;
      cbn [bind]; [discriminate|].
    destruct (city_row cities_df (venue_city g)) as [e|tr] eqn:Etr;
      cbn [bind ret]; [discriminate|].
    intros H. injection H as <-. cbn [legs prev_city prev_date].
    split; [|rewrite length_app; simpl; lia].
    split; [|split; [exact Hv|exists g; auto]].
    apply Forall_app. split; [exact Hlegs|]. constructor; [|constructor].
    unfold leg_of_schedule. cbn [date from_city to_city km].
    split; [exists g; auto|]. split; [exact Hprev|]. split; [exact Hv|].
    exists fr, tr.
    destruct (city_row_In _ _ _ Efr) as [H1 _].
    destruct (city_row_In _ _ _ Etr) as [H2 _]. auto.
Qed.

Lemma iterrows_of_schedule (cities_df : list City) (all : list Game)
  (base_city : string) (df : list Game) :
  forall st st' : Cursor,
    incl df all ->
    cursor_of_schedule cities_df all base_city st ->
    iterrows cities_df st df = inr st' ->
    cursor_of_schedule cities_df all base_city st' /\
    (List.length (legs st') <= List.length (legs st) + List.length df)%nat.
Proof.
  induction df as [|g rest IH]; intros st st' Hincl Hst; simpl.
  - intros H. injection H as <-. split; [exact Hst|lia].
  - destruct (visit cities_df st g) as [e|st1] eqn:Ev; cbn [bind];
      [discriminate|].
    intros Hrun.
    destruct (visit_of_schedule _ all base_city _ _ _
                (Hincl g (or_introl eq_refl)) Hst Ev) as [Hst1 Hlen1].
    destruct (IH st1 st' (fun x Hx => Hincl x (or_intror Hx)) Hst1 Hrun)
      as [Hst' Hlen']. split; [exact Hst'|lia].
Qed.

Lemma leg_of_schedule_incl (cities_df : list City) (all games : list Game)
  (base_city : string) (l : Leg) :
  (forall g, In g all -> In g games) ->
  leg_of_schedule cities_df all base_city l ->
  leg_of_schedule cities_df games base_city l.
Proof.
  intros Hsub ((g & Hg & Hd) & Hf & Ht & Hrows).
  assert (Hv : forall name, In name (base_city :: venues all) ->
                            In name (base_city :: venues games)).
  { intros name [->|Hn]; [left; reflexivity|right].
    unfold venues in *. apply in_map_iff in Hn. destruct Hn as [x [<- Hx]].
    apply in_map. apply Hsub. exact Hx. }
  split; [exists g; auto|]. split; [auto|]. split; [auto|exact Hrows].
Qed.

Lemma insert_by_date_length (x : Game) (l : list Game) :
  List.length (insert_by_date x l) = S (List.length l).
Proof.
  induction l as [|h t IH]; simpl; [reflexivity|].
  destruct (game_date x <? game_date h)%Z; simpl; [reflexivity|].
  rewrite IH. reflexivity.
Qed.

Lemma sort_values_length (games : list Game) :
  List.length (sort_values games) = List.length games.
Proof.
  induction games as [|x l IH] using rev_ind; [reflexivity|].
  rewrite sort_values_snoc, insert_by_date_length, IH, length_app.
  simpl. lia.
Qed.

Lemma compute_trip_legs_wf (games : list Game) (cities_df : list City)
  (base_city : string) (out : list Leg) :
  compute_trip_legs games cities_df base_city = inr out ->
  (List.length out <= List.length games + 1)%nat /\
  Forall (leg_of_schedule cities_df games base_city) out.
Proof.
  unfold compute_trip_legs.
  destruct (iterrows cities_df (mkCursor [] base_city None)
                     (sort_values games)) as [e|st] eqn:Erun;
    cbn [bind]; [discriminate|].
  assert (Hinit : cursor_of_schedule cities_df (sort_values games) base_city
                    (mkCursor [] base_city None)).
  { split; [constructor|]. split; [left; reflexivity|reflexivity]. }
  destruct (iterrows_of_schedule _ _ base_city _ _ _ (incl_refl _) Hinit Erun)
    as [(Hlegs & Hprev & Hdate) Hlen].
  cbn [legs List.length] in Hlen.
  pose proof (sort_values_length games) as Hslen.
  assert (Hsub : forall g, In g (sort_values games) -> In g games)
    by (intros g; apply sort_values_In).
  unfold travel_home.
  destruct (String.eqb_spec (prev_city st) base_city) as [E|E]; cbn [negb].
  - intros H. injection H as <-. split; [lia|].
    eapply Forall_impl; [|exact Hlegs].
    intros l. apply leg_of_schedule_incl. exact Hsub.
  - destruct (city_row cities_df (prev_city st)) as [e|fr] eqn:Efr;
      cbn [bind]; [discriminate|].
    destruct (city_row cities_df base_city) as [e|tr] eqn:Etr;
      cbn [bind ret]; [discriminate|].
    intros H. injection H as <-. split; [rewrite length_app; simpl; lia|].
    apply Forall_app. split.
    + eapply Forall_impl; [|exact Hlegs].
      intros l. apply leg_of_schedule_incl. exact Hsub.
    + constructor; [|constructor].
      apply (leg_of_schedule_incl _ (sort_values games)); [exact Hsub|].
      unfold leg_of_schedule. cbn [date from_city to_city km].
      destruct (prev_date st) as [d|]; [|contradiction].
      destruct Hdate as [g [Hg ->]].
      split; [exists g; auto|]. split; [exact Hprev|]. split; [left; reflexivity|].
      exists fr, tr.
      destruct (city_row_In _ _ _ Efr) as [H1 _].
      destruct (city_row_In _ _ _ Etr) as [H2 _]. auto.
Qed.

(** X5. Whatever the schedule and the table, when [compute_trip_legs]
    returns, it returns at most one leg per game plus one, and every leg
    comes from the schedule and the table: its date is the date of a game
    (never [None]), its two cities are the home base or venues and have a
    row in the table, and its km is the haversine distance of these
    rows. *)
Theorem compute_trip_legs_legs_of_schedule
  (games : list Game) (cities_df : list City) (base_city : string)
  (out : list Leg) :
  compute_trip_legs games cities_df base_city = inr out ->
  (List.length out <= List.length games + 1)%nat /\
  Forall (leg_of_schedule cities_df games base_city) out.
Proof.
  apply compute_trip_legs_wf.
Qed.

Lemma compute_trip_legs_legs_of_schedule_witness :
  let out :=
    [ mkLeg (Some (ymd 2024 1 5)) "Dallas" "Denver"
            (haversine 32.78 (-96.80) 39.74 (-104.99));
      mkLeg (Some (ymd 2024 1 5)) "Denver" "Dallas"
            (haversine 39.74 (-104.99) 32.78 (-96.80)) ] in
  (List.length out <= List.length example_games + 1)%nat /\
  Forall (leg_of_schedule (example_cities "DFW" "DEN") example_games
                          "Dallas") out.
Proof.
  intro out.
  apply (compute_trip_legs_legs_of_schedule
           example_games (example_cities "DFW" "DEN") "Dallas").
  evaluate. reflexivity.
Defined.

(** X6. When every latitude of the table is between -90 and 90 degrees,
    every leg that [compute_trip_legs] returns has a km between 0 and
    6371 pi. *)
Theorem compute_trip_legs_km_range
  (games : list Game) (cities_df : list City) (base_city : string)
  (out : list Leg) :
  compute_trip_legs games cities_df base_city = inr out ->
  Forall (fun c => (-90 <= lat c <= 90)%R) cities_df ->
  Forall (fun l => (0 <= km l <= 6371 * PI)%R) out.
Proof.
  intros Hrun Hlat.
  destruct (compute_trip_legs_wf _ _ _ _ Hrun) as [_ Hwf].
  eapply Forall_impl; [|exact Hwf].
  intros l (_ & _ & _ & fr & tr & Hfr & Htr & _ & _ & ->).
  rewrite Forall_forall in Hlat.
  apply haversine_bounds; apply Hlat; assumption.
Qed.

Lemma compute_trip_legs_km_range_witness :
  Forall (fun l => (0 <= km l <= 6371 * PI)%R)
    [ mkLeg (Some (ymd 2024 1 5)) "Dallas" "Denver"
            (haversine 32.78 (-96.80) 39.74 (-104.99));
      mkLeg (Some (ymd 2024 1 5)) "Denver" "Dallas"
            (haversine 39.74 (-104.99) 32.78 (-96.80)) ].
Proof.
  apply (compute_trip_legs_km_range
           example_games (example_cities "DFW" "DEN") "Dallas").
  - evaluate. reflexivity.
  - repeat constructor; simpl; lra.
Defined.

Lemma iterrows_count (cities_df : list City) (df : list Game) :
  forall st st' : Cursor,
    iterrows cities_df st df = inr st' ->
    List.length (legs st')
    = (List.length (legs st) + venue_changes (prev_city st) (venues df))%nat
    /\ prev_city st' = last (venues df) (prev_city st).
Proof.
  induction df as [|g rest IH]; intros st st'.
  - simpl. intros H. injection H as <-. split; [lia|reflexivity].
  - cbn [iterrows]. unfold venues. cbn [map venue_changes].
    rewrite last_cons. fold (venues rest). unfold visit.
    destruct (String.eqb (venue_city g) (prev_city st)); cbn [negb bind ret].
    + intros Hrun. destruct (IH _ _ Hrun) as [Hlen Hlast].
      cbn [legs prev_city] in Hlen, Hlast. split; [lia|exact Hlast].
    + destruct (city_row cities_df (prev_city st)); cbn [bind];
        [discriminate|].
      destruct (city_row cities_df (venue_city g)); cbn [bind ret];
        [discriminate|].
      intros Hrun. destruct (IH _ _ Hrun) as [Hlen Hlast].
      cbn [legs prev_city] in Hlen, Hlast. rewrite length_app in Hlen.
      simpl in Hlen. split; [lia|exact Hlast].
Qed.

(** ** The order of the rows of the schedule *)

Lemma insert_by_date_chronological (x : Game) (l : list Game) :
  chronological l = true -> chronological (insert_by_date x l) = true.
Proof.
  induction l as [|h t IH]; simpl; [reflexivity|].
  intros H. apply andb_prop in H. destruct H as [Hh Ht].
  rewrite forallb_forall in Hh.
  destruct (Z.ltb_spec (game_date x) (game_date h)) as [Hlt|Hge].
  - simpl. apply andb_true_intro. split.
    + apply andb_true_intro. split; [apply Z.leb_le; lia|].
      apply forallb_forall. intros e He. specialize (Hh e He).
      apply Z.leb_le in Hh. apply Z.leb_le. lia.
    + apply andb_true_intro. split; [|exact Ht].
      apply forallb_forall. exact Hh.
  - simpl. apply andb_true_intro. split; [|apply IH; exact Ht].
    apply forallb_forall. intros e He. apply insert_by_date_In in He.
    destruct He as [->|He]; [apply Z.leb_le; lia|apply Hh; exact He].
Qed.

Lemma sort_values_sorted (games : list Game) :
  chronological (sort_values games) = true.
Proof.
  induction games as [|x l IH] using rev_ind; [reflexivity|].
  rewrite sort_values_snoc. apply insert_by_date_chronological. exact IH.
Qed.

Lemma insert_by_date_perm (x : Game) (l : list Game) :
  Permutation (insert_by_date x l) (x :: l).
Proof.
  induction l as [|h t IH]; simpl; [apply Permutation_refl|].
  destruct (game_date x <? game_date h)%Z; [apply Permutation_refl|].
  eapply Permutation_trans; [apply perm_skip; exact IH|apply perm_swap].
Qed.

Lemma sort_values_perm (games : list Game) :
  Permutation (sort_values games) games.
Proof.
  induction games as [|x l IH] using rev_ind; [apply Permutation_refl|].
  rewrite sort_values_snoc.
  eapply Permutation_trans; [apply insert_by_date_perm|].
  eapply Permutation_trans; [apply perm_skip; exact IH|].
  apply Permutation_cons_append.
Qed.

Lemma distinct_dates_NoDup (games : list Game) :
  distinct_dates games = true -> NoDup (map game_date games).
Proof.
  induction games as [|g rest IH]; simpl; [constructor|].
  intros H. apply andb_prop in H. destruct H as [Hg Hrest].
  constructor; [|apply IH; exact Hrest].
  intros Hin. apply in_map_iff in Hin. destruct Hin as [h [Hd Hh]].
  rewrite forallb_forall in Hg. specialize (Hg h Hh).
  apply negb_true_iff in Hg. apply Z.eqb_neq in Hg. congruence.
Qed.

Lemma NoDup_map_inj {A B : Type} (f : A -> B) (l : list A) (x y : A) :
  NoDup (map f l) -> In x l -> In y l -> f x = f y -> x = y.
Proof.
  induction l as [|a t IH]; simpl; [intros _ []|].
  intros Hnd Hx Hy Hf. inversion Hnd as [|? ? Hna Hnt]; subst.
  destruct Hx as [->|Hx], Hy as [->|Hy]; auto.
  - exfalso. apply Hna. rewrite Hf. apply in_map. exact Hy.
  - exfalso. apply Hna. rewrite <- Hf. apply in_map. exact Hx.
Qed.

Lemma chronological_unique (l1 : list Game) :
  forall l2 : list Game,
    chronological l1 = true -> chronological l2 = true ->
    NoDup (map game_date l1) -> Permutation l1 l2 -> l1 = l2.
Proof.
  induction l1 as [|a t1 IH]; intros l2 H1 H2 Hnd Hp.
  - apply Permutation_nil in Hp. congruence.
  - destruct l2 as [|b t2];
      [apply Permutation_sym, Permutation_nil in Hp; discriminate|].
    assert (Hab : a = b).
    { assert (Ha : In a (b :: t2))
        by (eapply Permutation_in; [exact Hp|left; reflexivity]).
      assert (Hb : In b (a :: t1))
        by (eapply Permutation_in;
            [apply Permutation_sym; exact Hp|left; reflexivity]).
      destruct Ha as [->|Ha]; [reflexivity|].
      destruct Hb as [->|Hb]; [reflexivity|].
      simpl in H1, H2.
      apply andb_prop in H1. destruct H1 as [H1 _].
      apply andb_prop in H2. destruct H2 as [H2 _].
      rewrite forallb_forall in H1, H2.
      specialize (H1 b Hb). specialize (H2 a Ha).
      apply Z.leb_le in H1. apply Z.leb_le in H2.
      apply (NoDup_map_inj game_date (a :: t1)); auto;
        [left; reflexivity|right; exact Hb|lia]. }
    subst b. f_equal.
    simpl in H1, H2.
    apply andb_prop in H1. destruct H1 as [_ H1].
    apply andb_prop in H2. destruct H2 as [_ H2].
    inversion Hnd; subst.
    apply IH; auto. eapply Permutation_cons_inv. exact Hp.
Qed.

Lemma sort_values_permutation (games1 games2 : list Game) :
  Permutation games1 games2 ->
  distinct_dates games1 = true ->
  sort_values games1 = sort_values games2.
Proof.
  intros Hp Hd.
  apply chronological_unique; try apply sort_values_sorted.
  - apply (Permutation_NoDup
             (Permutation_map game_date
                (Permutation_sym (sort_values_perm games1)))).
    apply distinct_dates_NoDup. exact Hd.
  - eapply Permutation_trans; [apply sort_values_perm|].
    eapply Permutation_trans; [exact Hp|].
    apply Permutation_sym. apply sort_values_perm.
Qed.

(** X8. The order of the rows of the schedule does not matter when no
    two games have the same date: [compute_trip_legs] returns the same
    result, legs or error, on the rows in any other order. *)
Theorem compute_trip_legs_row_order
  (games1 games2 : list Game) (cities_df : list City) (base_city : string) :
  Permutation games1 games2 ->
  distinct_dates games1 = true ->
  compute_trip_legs games1 cities_df base_city
  = compute_trip_legs games2 cities_df base_city.
Proof.
  intros Hp Hd. unfold compute_trip_legs.
  rewrite (sort_values_permutation _ _ Hp Hd). reflexivity.
Qed.

Lemma compute_trip_legs_row_order_witness :
  compute_trip_legs
    [ mkGame (ymd 2024 1 12) "Dallas"; mkGame (ymd 2024 1 5) "Denver" ]
    (example_cities "DFW" "DEN") "Dallas"
  = compute_trip_legs
      [ mkGame (ymd 2024 1 5) "Denver"; mkGame (ymd 2024 1 12) "Dallas" ]
      (example_cities "DFW" "DEN") "Dallas".
Proof.
  apply compute_trip_legs_row_order; [apply perm_swap|reflexivity].
Defined.

Lemma ascending_snoc (ds : list Z) (x : Z) :
  ascending ds = true ->
  (forall d, In d ds -> (d <= x)%Z) ->
  ascending (ds ++ [x]) = true.
Proof.
  induction ds as [|d t IH]; simpl; [reflexivity|].
  intros H Hle. apply andb_prop in H. destruct H as [Hd Ht].
  apply andb_true_intro. split.
  - rewrite forallb_app, Hd. simpl. rewrite andb_true_r.
    apply Z.leb_le. apply Hle. left. reflexivity.
  - apply IH; [exact Ht|]. intros e He. apply Hle. right. exact He.
Qed.

Lemma iterrows_ascending (cities_df : list City) (df : list Game) :
  forall (st st' : Cursor) (ds : list Z),
    chronological df = true ->
    map date (legs st) = map Some ds ->
    ascending ds = true ->
    (forall d, In d ds -> exists m, prev_date st = Some m /\ (d <= m)%Z) ->
    (forall m g, prev_date st = Some m -> In g df -> (m <= game_date g)%Z) ->
    iterrows cities_df st df = inr st' ->
    exists ds',
      map date (legs st') = map Some ds' /\
      ascending ds' = true /\
      (forall d, In d ds' -> exists m, prev_date st' = Some m /\ (d <= m)%Z).
Proof.
  induction df as [|g rest IH]; intros st st' ds Hsorted Hds Hasc Hle Hrows.
  - simpl. intros H. injection H as <-. exists ds. auto.
  - cbn [iterrows].
    destruct (visit cities_df st g) as [e|st1] eqn:Ev; cbn [bind];
      [discriminate|].
    simpl in Hsorted. apply andb_prop in Hsorted.
    destruct Hsorted as [Hg Hrest]. rewrite forallb_forall in Hg.
    assert (Hbelow : forall d, In d ds -> (d <= game_date g)%Z).
    { intros d Hd. destruct (Hle d Hd) as [m [Hm Hdm]].
      specialize (Hrows m g Hm (or_introl eq_refl)). lia. }
    assert (Hnext : forall m x, prev_date st1 = Some m -> In x rest ->
                                (m <= game_date x)%Z).
    { intros m x Hm Hx. unfold visit in Ev.
      destruct (negb (String.eqb (venue_city g) (prev_city st)));
        [destruct (city_row cities_df (prev_city st)); cbn [bind] in Ev;
           [discriminate|];
         destruct (city_row cities_df (venue_city g)); cbn [bind] in Ev;
           [discriminate|]|];
        cbn [bind ret] in Ev; injection Ev as <-; cbn [prev_date] in Hm;
        injection Hm as <-; apply Z.leb_le; apply Hg; exact Hx. }
    unfold visit in Ev.
    destruct (negb (String.eqb (venue_city g) (prev_city st))).
    + destruct (city_row cities_df (prev_city st)); cbn [bind] in Ev;
        [discriminate|].
      destruct (city_row cities_df (venue_city g)); cbn [bind ret] in Ev;
        [discriminate|].
      injection Ev as <-.
      apply (IH _ st' (ds ++ [game_date g])); auto.
      * cbn [legs]. rewrite !map_app, Hds. reflexivity.
      * apply ascending_snoc; assumption.
      * intros d Hd. cbn [prev_date]. exists (game_date g).
        split; [reflexivity|]. apply in_app_iff in Hd.
        destruct Hd as [Hd|[<-|[]]]; [apply Hbelow; exact Hd|lia].
    + cbn [bind ret] in Ev. injection Ev as <-.
      apply (IH _ st' ds); auto.
      intros d Hd. cbn [prev_date]. exists (game_date g).
      split; [reflexivity|apply Hbelow; exact Hd].
Qed.

(** X9. Whatever the order of the rows of the schedule, the legs that
    [compute_trip_legs] returns are in date order: each leg has a date,
    and it is no later than the date of any leg after it. *)
Theorem compute_trip_legs_date_order
  (games : list Game) (cities_df : list City) (base_city : string)
  (out : list Leg) :
  compute_trip_legs games cities_df base_city = inr out ->
  exists ds : list Z,
    map date out = map Some ds /\ ascending ds = true.
Proof.
  intros Hrun.
  destruct (compute_trip_legs_wf _ _ _ _ Hrun) as [_ Hwf].
  revert Hrun. unfold compute_trip_legs.
  destruct (iterrows cities_df (mkCursor [] base_city None)
                     (sort_values games)) as [e|st] eqn:Erun;
    cbn [bind]; [discriminate|].
  destruct (iterrows_ascending cities_df (sort_values games)
              (mkCursor [] base_city None) st []
              (sort_values_sorted games) eq_refl eq_refl)
    as [ds [Hds [Hasc Hle]]]; [intros d []|discriminate|exact Erun|].
  unfold travel_home.
  destruct (negb (String.eqb (prev_city st) base_city)).
  - destruct (city_row cities_df (prev_city st)); cbn [bind]; [discriminate|].
    destruct (city_row cities_df base_city); cbn [bind ret]; [discriminate|].
    intros H. injection H as <-.
    destruct (prev_date st) as [m|] eqn:Em.
    + exists (ds ++ [m]). split.
      * rewrite !map_app, Hds. reflexivity.
      * apply ascending_snoc; [exact Hasc|].
        intros d Hd. destruct (Hle d Hd) as [m' [Hm' Hdm]]. congruence.
    + exfalso. rewrite Forall_forall in Hwf.
      destruct (Hwf (mkLeg None (prev_city st) base_city
                       (haversine (lat c) (lon c) (lat c0) (lon c0))))
        as [[g [_ Hg]] _]; [apply in_or_app; right; left; reflexivity|].
      discriminate.
  - intros H. injection H as <-. exists ds. auto.
Qed.

Lemma compute_trip_legs_date_order_witness :
  exists ds : list Z,
    map date
      [ mkLeg (Some (ymd 2024 1 5)) "Dallas" "Denver"
              (haversine 32.78 (-96.80) 39.74 (-104.99));
        mkLeg (Some (ymd 2024 1 12)) "Denver" "Dallas"
              (haversine 39.74 (-104.99) 32.78 (-96.80)) ]
    = map Some ds /\ ascending ds = true.
Proof.
  apply (compute_trip_legs_date_order
           [ mkGame (ymd 2024 1 12) "Dallas"; mkGame (ymd 2024 1 5) "Denver" ]
           (example_cities "DFW" "DEN") "Dallas").
  evaluate. reflexivity.
Defined.

(** ** Runs of [main] that stop before the forecast *)

Lemma compute_trip_legs_all_home (games : list Game) (cities_df : list City)
  (base_city : string) :
  forallb (at_city base_city) games = true ->
  compute_trip_legs games cities_df base_city = inr [].
Proof.
  intros Hall. unfold compute_trip_legs.
  assert (Hs : forallb (at_city base_city) (sort_values games) = true).
  { apply forallb_forall. intros g Hg.
    apply (proj1 (sort_values_In _ _)) in Hg.
    exact (proj1 (forallb_forall _ _) Hall g Hg). }
  destruct (iterrows_stay cities_df (sort_values games)
                          (mkCursor [] base_city None) Hs) as [d ->].
  simpl. unfold travel_home. simpl. rewrite String.eqb_refl. reflexivity.
Qed.

Lemma groupby_sum_one_week (w : Timestamp) (keys vals : list Analysis.cell) :
  Forall (fun k => k = Analysis.Stamp w) keys ->
  Analysis.groupby_sum keys vals = []
  \/ exists x, Analysis.groupby_sum keys vals = [(w, x)].
Proof.
  unfold Analysis.groupby_sum. intros H.
  assert (G : forall kv acc,
             Forall (fun p => fst p = Analysis.Stamp w) kv ->
             (acc = [] \/ exists x, acc = [(w, x)]) ->
             let out := fold_left
                  (fun acc kv =>
                     match kv with
                     | (Analysis.Stamp w, Analysis.Num x) =>
                         Analysis.add_to_group w x acc
                     | (Analysis.Stamp w, _) =>
                         Analysis.add_to_group w 0%R acc
                     | _ => acc
                     end) kv acc in
             out = [] \/ exists x, out = [(w, x)]).
  { induction kv as [|[k v] rest IH]; intros acc Hk Ha; simpl; [exact Ha|].
    inversion Hk as [|? ? Hk1 Hk2]; subst. simpl in Hk1. subst k.
    apply IH; [exact Hk2|]. right.
    destruct Ha as [->|[x ->]]; destruct v; simpl;
      rewrite ?Z.ltb_irrefl, ?Z.eqb_refl; eauto. }
  apply G; [|left; reflexivity].
  revert vals. induction H as [|k ks Hk Hks IH]; intros [|v vs]; simpl;
    constructor; auto.
Qed.

Lemma date_range_W_monday (w : Timestamp) :
  weekday w = 0%Z -> date_range_W w w = [].
Proof.
  intros H. unfold date_range_W, rollforward_W. rewrite H.
  destruct (Z.ltb_spec w (w + (6 - 0))%Z); [reflexivity|lia].
Qed.

Section StoppedRuns.

Variable Generator : Type.
Variable default_rng : Z -> Generator.
Variable normal : Generator -> R -> R -> R * Generator.

(** X10. When every game of the schedule is played in Dallas, the home
    base of [main] (in particular when the schedule is empty), there is
    no leg, the frame of legs has no column, and [main] stops at
    [legs["date"]] with a [KeyError], whatever the table of cities. *)
Theorem main_no_leg_key_error
  (df_cities : list City) (df_sched : list Game) :
  forallb (at_city Analysis.BASE_CITY) df_sched = true ->
  Analysis.main_locals Generator default_rng normal df_cities df_sched
  = inl (KeyError "date").
Proof.
  intros H. unfold Analysis.main_locals.
  rewrite (compute_trip_legs_all_home _ _ _ H). reflexivity.
Qed.

End StoppedRuns.

Lemma main_no_leg_key_error_witness :
  Analysis.main_locals nat counting_rng counting_normal
    (example_cities "DFW" "DEN") [ mkGame (ymd 2024 1 5) "Dallas" ]
  = inl (KeyError "date").
Proof.
  apply main_no_leg_key_error. reflexivity.
Defined.

(** ** The grid, the split and the future index *)

Lemma fold_left_min_spec (t : list Z) :
  forall h : Z,
    In (fold_left Z.min t h) (h :: t) /\
    (forall x, In x (h :: t) -> (fold_left Z.min t h <= x)%Z).
Proof.
  induction t as [|a t IH]; intros h; simpl.
  - split; [left; reflexivity|]. intros x [->|[]]. lia.
  - destruct (IH (Z.min h a)) as [Hin Hle]. split.
    + destruct Hin as [Hin|Hin]; [|right; right; exact Hin].
      rewrite <- Hin.
      destruct (Z.min_spec h a) as [[_ E]|[_ E]]; rewrite E; auto.
    + intros x Hx.
      assert (Hm : (fold_left Z.min t (Z.min h a) <= Z.min h a)%Z)
        by (apply Hle; left; reflexivity).
      destruct Hx as [->|[->|Hx]]; [lia|lia|].
      apply Hle. right. exact Hx.
Qed.

Lemma fold_left_max_spec (t : list Z) :
  forall h : Z,
    In (fold_left Z.max t h) (h :: t) /\
    (forall x, In x (h :: t) -> (x <= fold_left Z.max t h)%Z).
Proof.
  induction t as [|a t IH]; intros h; simpl.
  - split; [left; reflexivity|]. intros x [->|[]]. lia.
  - destruct (IH (Z.max h a)) as [Hin Hle]. split.
    + destruct Hin as [Hin|Hin]; [|right; right; exact Hin].
      rewrite <- Hin.
      destruct (Z.max_spec h a) as [[_ E]|[_ E]]; rewrite E; auto.
    + intros x Hx.
      assert (Hm : (Z.max h a <= fold_left Z.max t (Z.max h a))%Z)
        by (apply Hle; left; reflexivity).
      destruct Hx as [->|[->|Hx]]; [lia|lia|].
      apply Hle. right. exact Hx.
Qed.

Lemma date_range_W_between_mondays (lo hi : Timestamp) :
  weekday lo = 0%Z -> weekday hi = 0%Z -> (lo <= hi)%Z ->
  date_range_W lo hi = weekly_from (lo + 6)%Z (Z.to_nat ((hi - lo) / 7)).
Proof.
  unfold weekday, date_range_W, rollforward_W. intros Hlo Hhi Hle.
  unfold weekday. rewrite Hlo.
  replace (lo + (6 - 0))%Z with (lo + 6)%Z by lia.
  destruct (Z.ltb_spec hi (lo + 6)%Z) as [Hlt|Hge].
  - replace ((hi - lo) / 7)%Z with 0%Z; [reflexivity|].
    symmetry. apply Z.div_small. lia.
  - f_equal. f_equal. revert Hlo Hhi. Z.div_mod_to_equations. lia.
Qed.

Section GridFacts.

Variable Generator : Type.
Variable default_rng : Z -> Generator.
Variable normal : Generator -> R -> R -> R * Generator.

(** X12. In every run of [main] that reaches the forecast, the first and
    the last week of the weekly-km series are Mondays [lo < hi], and the
    weekly grid is the Sundays [lo + 6], [lo + 13], ... before [hi]: it
    has [(hi - lo) / 7] points, one fewer than the weeks from [lo] to
    [hi]. *)
Theorem main_weekly_index_points
  (df_cities : list City) (df_sched : list Game) (L : Analysis.Locals) :
  Analysis.main_locals Generator default_rng normal df_cities df_sched
  = inr L ->
  exists lo hi : Timestamp,
    Analysis.index_min (Analysis.ts_km_weekly L) = Some lo
    /\ Analysis.index_max (Analysis.ts_km_weekly L) = Some hi
    /\ weekday lo = 0%Z /\ weekday hi = 0%Z /\ (lo < hi)%Z
    /\ Analysis.weekly_index L
       = weekly_from (lo + 6)%Z (Z.to_nat ((hi - lo) / 7))
    /\ List.length (Analysis.weekly_index L) = Z.to_nat ((hi - lo) / 7).
Proof.
  intros Hrun.
  destruct (main_locals_inv _ _ _ _ _ _ Hrun)
    as (l & t & _ & _ & Hts & _ & Hidx & Hkm & _ & _ & _ & _ & _ & Htk
        & _ & Hfut).
  assert (Hmon : Forall (fun p => weekday (fst p) = 0%Z)
                        (Analysis.ts_km_weekly L)).
  { rewrite Hts. apply (groupby_sum_keys (fun w => weekday w = 0%Z)).
    apply week_cells_monday. }
  rewrite Forall_forall in Hmon.
  unfold Analysis.date_range_of, Analysis.index_min, Analysis.index_max,
    Analysis.index in *.
  destruct (Analysis.ts_km_weekly L) as [|p rest] eqn:Ets; [discriminate|].
  cbn [map] in *.
  destruct (fold_left_min_spec (map fst rest) (fst p)) as [Hmin Hminle].
  destruct (fold_left_max_spec (map fst rest) (fst p)) as [Hmax Hmaxle].
  set (lo := fold_left Z.min (map fst rest) (fst p)) in *.
  set (hi := fold_left Z.max (map fst rest) (fst p)) in *.
  assert (Hkey : forall x, In x (fst p :: map fst rest) -> weekday x = 0%Z).
  { intros x Hx. change (fst p :: map fst rest) with (map fst (p :: rest)) in Hx.
    apply in_map_iff in Hx. destruct Hx as [q [<- Hq]]. apply Hmon. exact Hq. }
  assert (Hle : (lo <= hi)%Z).
  { specialize (Hminle (fst p) (or_introl eq_refl)).
    specialize (Hmaxle (fst p) (or_introl eq_refl)). lia. }
  injection Hidx as Hidx.
  rewrite (date_range_W_between_mondays lo hi (Hkey lo Hmin) (Hkey hi Hmax)
             Hle) in Hidx.
  assert (Hlt : (lo < hi)%Z).
  { destruct (Z.eq_dec lo hi) as [E|E]; [|lia]. exfalso.
    rewrite E, Z.sub_diag in Hidx. simpl in Hidx.
    rewrite <- Hidx in Hkm. simpl in Hkm.
    rewrite Hkm in Htk. unfold Analysis.iloc_from in Htk.
    rewrite skipn_nil in Htk. rewrite Htk in Hfut. discriminate. }
  exists lo, hi.
  repeat (split; [reflexivity || auto|]).
  rewrite <- Hidx. unfold weekly_from. rewrite length_map, length_seq.
  reflexivity.
Qed.

(** X13. In every run of [main] that reaches the forecast, the train and
    test windows split the grid series in two: train followed by test is
    the whole series, for km and for cost; the test window has 8 points
    when the grid has more than 10, and otherwise 2 points, or 1 when
    the grid has a single point. *)
Theorem main_train_test_split
  (df_cities : list City) (df_sched : list Game) (L : Analysis.Locals) :
  Analysis.main_locals Generator default_rng normal df_cities df_sched
  = inr L ->
  let n := List.length (Analysis.weekly_index L) in
  (Analysis.train_km L ++ Analysis.test_km L = Analysis.km L)%list
  /\ (Analysis.train_cost L ++ Analysis.test_cost L = Analysis.cost L)%list
  /\ List.length (Analysis.km L) = n
  /\ List.length (Analysis.cost L) = n
  /\ (1 <= n)%nat
  /\ List.length (Analysis.test_km L)
     = (if (10 <? n)%nat then 8 else Nat.min n 2)%nat
  /\ List.length (Analysis.train_km L)
     = (if (10 <? n)%nat then n - 8 else n - 2)%nat.
Proof.
  intros Hrun n.
  destruct (main_locals_inv _ _ _ _ _ _ Hrun)
    as (l & t & _ & _ & _ & _ & _ & Hkm & Hcost & Hsplit & Htrc & Htc & Htrk
        & Htk & _ & Hfut).
  assert (Hnk : List.length (Analysis.km L) = n).
  { rewrite Hkm. unfold Analysis.fillna, Analysis.reindex.
    rewrite !length_map. reflexivity. }
  assert (Hnc : List.length (Analysis.cost L) = n).
  { rewrite Hcost, length_interpolate. unfold Analysis.reindex.
    rewrite length_map. reflexivity. }
  assert (Hpos : (1 <= n)%nat).
  { destruct (concat_future_inv _ _ Hfut) as [Hne _].
    rewrite Htk in Hne. unfold Analysis.iloc_from in Hne.
    destruct (Analysis.km L) as [|x xs]; [|simpl in Hnk; lia].
    rewrite skipn_nil in Hne. congruence. }
  split; [rewrite Htrk, Htk; apply firstn_skipn|].
  split; [rewrite Htrc, Htc; apply firstn_skipn|].
  split; [exact Hnk|]. split; [exact Hnc|]. split; [exact Hpos|].
  rewrite Htk, Htrk. unfold Analysis.iloc_from, Analysis.iloc_to.
  rewrite length_skipn, length_firstn, Hnk, Hsplit.
  fold n. unfold Analysis.slice_bound.
  destruct (Nat.ltb_spec 10 n); simpl; split; lia.
Qed.

End GridFacts.

Lemma main_weekly_index_points_witness :
  exists L,
    Analysis.main_locals nat counting_rng counting_normal
      (example_cities "DFW" "DEN") three_week_games = inr L
    /\ exists lo hi : Timestamp,
      Analysis.index_min (Analysis.ts_km_weekly L) = Some lo
      /\ Analysis.index_max (Analysis.ts_km_weekly L) = Some hi
      /\ weekday lo = 0%Z /\ weekday hi = 0%Z /\ (lo < hi)%Z
      /\ Analysis.weekly_index L
         = weekly_from (lo + 6)%Z (Z.to_nat ((hi - lo) / 7))
      /\ List.length (Analysis.weekly_index L) = Z.to_nat ((hi - lo) / 7).
Proof.
  eexists. split; [evaluate; reflexivity|].
  apply (main_weekly_index_points nat counting_rng counting_normal
           (example_cities "DFW" "DEN") three_week_games).
  evaluate. reflexivity.
Defined.

Lemma main_train_test_split_witness :
  exists L,
    Analysis.main_locals nat counting_rng counting_normal
      (example_cities "DFW" "DEN") three_week_games = inr L
    /\ let n := List.length (Analysis.weekly_index L) in
       (Analysis.train_km L ++ Analysis.test_km L = Analysis.km L)%list
       /\ (Analysis.train_cost L ++ Analysis.test_cost L
           = Analysis.cost L)%list
       /\ List.length (Analysis.km L) = n
       /\ List.length (Analysis.cost L) = n
       /\ (1 <= n)%nat
       /\ List.length (Analysis.test_km L)
          = (if (10 <? n)%nat then 8 else Nat.min n 2)%nat
       /\ List.length (Analysis.train_km L)
          = (if (10 <? n)%nat then n - 8 else n - 2)%nat.
Proof.
  eexists. split; [evaluate; reflexivity|].
  apply (main_train_test_split nat counting_rng counting_normal
           (example_cities "DFW" "DEN") three_week_games).
  evaluate. reflexivity.
Defined.

(** ** The join of the coordinates *)





(** ** The weekly sums *)

Lemma add_to_group_total (w : Timestamp) (x : R) (s : Series R) :
  total (map snd (Analysis.add_to_group w x s))
  = (total (map snd s) + x)%R.
Proof.
  induction s as [|[w' y] t IH]; simpl; [lra|].
  destruct (w <? w')%Z; simpl; [lra|].
  destruct (w =? w')%Z; simpl; [lra|]. rewrite IH. lra.
Qed.

Lemma add_to_group_index (w k : Timestamp) (x : R) (s : Series R) :
  In k (map fst (Analysis.add_to_group w x s))
  -> k = w \/ In k (map fst s).
Proof.
  induction s as [|[w' y] t IH]; simpl; [intuition|].
  destruct (w <? w')%Z; simpl; [intuition|].
  destruct (w =? w')%Z; simpl; intuition.
Qed.

Lemma add_to_group_strict (w : Timestamp) (x : R) (s : Series R) :
  strictly_ascending (map fst s) = true ->
  strictly_ascending (map fst (Analysis.add_to_group w x s)) = true.
Proof.
  induction s as [|[w' y] t IH]; simpl; [reflexivity|].
  intros H. apply andb_prop in H. destruct H as [Hh Ht].
  rewrite forallb_forall in Hh.
  destruct (Z.ltb_spec w w') as [Hlt|Hge]; simpl.
  - apply andb_true_intro. split.
    + apply andb_true_intro. split; [apply Z.ltb_lt; exact Hlt|].
      apply forallb_forall. intros e He. specialize (Hh e He).
      apply Z.ltb_lt in Hh. apply Z.ltb_lt. lia.
    + apply andb_true_intro. split; [apply forallb_forall; exact Hh|exact Ht].
  - destruct (Z.eqb_spec w w') as [E|E]; simpl.
    + apply andb_true_intro. split; [apply forallb_forall; exact Hh|exact Ht].
    + apply andb_true_intro. split; [|apply IH; exact Ht].
      apply forallb_forall. intros e He.
      apply add_to_group_index in He. destruct He as [->|He];
        [apply Z.ltb_lt; lia|apply Hh; exact He].
Qed.

Lemma groupby_legs (trip : list Leg) :
  Forall (fun l => date l <> None) trip ->
  forall acc : Series R,
    let out :=
      fold_left
        (fun acc kv =>
           match kv with
           | (Analysis.Stamp w, Analysis.Num x) => Analysis.add_to_group w x acc
           | (Analysis.Stamp w, _) => Analysis.add_to_group w 0%R acc
           | _ => acc
           end)
        (combine (map week_cell trip)
                 (map (fun l => Analysis.Num (km l)) trip)) acc in
    total (map snd out) = (total (map snd acc) + total (map km trip))%R
    /\ (strictly_ascending (map fst acc) = true ->
        strictly_ascending (map fst out) = true).
Proof.
  induction 1 as [|l t Hl Ht IH]; intros acc.
  - simpl. split; [lra|auto].
  - cbn [map combine fold_left].
    replace (week_cell l) with (Analysis.Stamp
      (week_start_time (match date l with Some d => d | None => 0%Z end)))
      by (unfold week_cell, date_cell; destruct (date l);
          [reflexivity|congruence]).
    cbv beta iota zeta.
    destruct (IH (Analysis.add_to_group
                    (week_start_time
                       (match date l with Some d => d | None => 0%Z end))
                    (km l) acc)) as [Htot Hasc].
    split.
    + rewrite Htot, add_to_group_total. cbn [map total fold_right].
      unfold total. lra.
    + intros Hacc. apply Hasc. apply add_to_group_strict. exact Hacc.
Qed.

Lemma total_zero_series (idx : list Timestamp) :
  total (map snd (Analysis.fillna (map (fun t => (t, None)) idx) 0%R)) = 0%R.
Proof.
  induction idx as [|t ts IH]; [reflexivity|].
  unfold Analysis.fillna in *. cbn [map fst snd total fold_right].
  unfold total in IH. rewrite IH. lra.
Qed.

Section WeeklySums.

Variable Generator : Type.
Variable default_rng : Z -> Generator.
Variable normal : Generator -> R -> R -> R * Generator.

Lemma main_grid_disjoint
  (df_cities : list City) (df_sched : list Game) (L : Analysis.Locals) :
  Analysis.main_locals Generator default_rng normal df_cities df_sched
  = inr L ->
  forall t, In t (Analysis.weekly_index L) ->
            ~ In t (Analysis.index (Analysis.ts_km_weekly L)).
Proof.
  intros H. destruct (main_locals_inv _ _ _ _ _ _ H)
    as (l & trip & _ & _ & Hts & _ & Hidx & _).
  destruct (date_range_of_nonempty _ _ Hidx) as [_ [lo [hi Hgrid]]].
  intros t Ht Hin. rewrite Hgrid in Ht.
  pose proof (weekday_date_range_W _ _ _ Ht) as Hsun.
  assert (Hmon : Forall (fun p => weekday (fst p) = 0%Z)
                        (Analysis.ts_km_weekly L)).
  { rewrite Hts. apply (groupby_sum_keys (fun w => weekday w = 0%Z)).
    apply week_cells_monday. }
  unfold Analysis.index in Hin. apply in_map_iff in Hin.
  destruct Hin as [p [Hp Hin]].
  rewrite Forall_forall in Hmon. specialize (Hmon p Hin).
  rewrite Hp in Hmon. lia.
Qed.

(** X16. In every run of [main] that reaches the forecast, the weekly-km
    series has its weeks in strictly ascending order, and the sum of its
    values is the sum of the km of the legs: the weekly bucketing loses
    no distance.  The km series on the grid sums to 0.0: the reindexing
    loses all of it. *)
Theorem main_weekly_km_total
  (df_cities : list City) (df_sched : list Game) (L : Analysis.Locals) :
  Analysis.main_locals Generator default_rng normal df_cities df_sched
  = inr L ->
  exists trip : list Leg,
    compute_trip_legs df_sched df_cities Analysis.BASE_CITY = inr trip
    /\ strictly_ascending (Analysis.index (Analysis.ts_km_weekly L)) = true
    /\ total (Analysis.values (Analysis.ts_km_weekly L))
       = total (map km trip)
    /\ total (Analysis.values (Analysis.km L)) = 0%R.
Proof.
  intros H. destruct (main_locals_inv _ _ _ _ _ _ H)
    as (l & trip & Htrip & _ & Hts & _ & _ & Hkm & _).
  exists (l :: trip). split; [exact Htrip|].
  destruct (compute_trip_legs_wf _ _ _ _ Htrip) as [_ Hwf].
  assert (Hdates : Forall (fun x => date x <> None) (l :: trip)).
  { eapply Forall_impl; [|exact Hwf].
    intros x [[g [_ Hg]] _]. congruence. }
  destruct (groupby_legs (l :: trip) Hdates []) as [Htot Hasc].
  unfold Analysis.index, Analysis.values. rewrite Hts.
  unfold Analysis.groupby_sum.
  split; [apply Hasc; reflexivity|].
  split; [rewrite Htot; simpl; lra|].
  rewrite Hkm, (reindex_absent _ _ (main_grid_disjoint _ _ _ H)).
  apply total_zero_series.
Qed.

End WeeklySums.

Lemma main_weekly_km_total_witness :
  exists L,
    Analysis.main_locals nat counting_rng counting_normal
      (example_cities "DFW" "DEN") three_week_games = inr L
    /\ exists trip : list Leg,
      compute_trip_legs three_week_games (example_cities "DFW" "DEN")
                        Analysis.BASE_CITY = inr trip
      /\ strictly_ascending (Analysis.index (Analysis.ts_km_weekly L)) = true
      /\ total (Analysis.values (Analysis.ts_km_weekly L))
         = total (map km trip)
      /\ total (Analysis.values (Analysis.km L)) = 0%R.
Proof.
  eexists. split; [evaluate; reflexivity|].
  apply (main_weekly_km_total nat counting_rng counting_normal
           (example_cities "DFW" "DEN") three_week_games).
  evaluate. reflexivity.
Defined.

(** ** More on the cost model *)

Section CostModelMore.

Variable Generator : Type.
Variable default_rng : Z -> Generator.
Variable normal : Generator -> R -> R -> R * Generator.

Lemma basic_cost_model_closed (km_series : Series R) (seed : Z) :
  basic_cost_model Generator default_rng normal km_series seed
  = map_from (cost_of_row Generator normal (default_rng seed)) 0 km_series.
Proof.
  unfold basic_cost_model. rewrite combine_fst_snd.
  change (default_rng seed)
    with (generator_after Generator normal (default_rng seed) 0) at 1.
  rewrite cost_loop_closed. simpl. apply map_from_fst.
Qed.

Lemma map_from_app {A B : Type} (f : nat -> A -> B) (l1 l2 : list A) :
  forall i : nat,
    map_from f i (l1 ++ l2)
    = map_from f i l1 ++ map_from f (i + List.length l1) l2.
Proof.
  induction l1 as [|a t IH]; intros i; simpl.
  - rewrite Nat.add_0_r. reflexivity.
  - rewrite IH. do 3 f_equal. lia.
Qed.

(** X17. The costs of the first weeks do not depend on the weeks after
    them: [basic_cost_model] on a series followed by more weeks returns
    the costs of the series alone, followed by the costs of the added
    weeks, which use the draws after those of the series. *)
Theorem basic_cost_model_prefix (km_series more : Series R) (seed : Z) :
  basic_cost_model Generator default_rng normal (km_series ++ more) seed
  = basic_cost_model Generator default_rng normal km_series seed
    ++ map_from (cost_of_row Generator normal (default_rng seed))
                (List.length km_series) more.
Proof.
  rewrite !basic_cost_model_closed, map_from_app. reflexivity.
Qed.

End CostModelMore.

(** X18. The seasonal term of the cost lies between 22 and 58 for every
    month. *)
Theorem seasonal_factor_range (month : Z) :
  (22 <= seasonal_factor month <= 58)%R.
Proof.
  unfold seasonal_factor.
  pose proof (SIN_bound (2 * PI * IZR (month - 1) / 12)) as [Hs1 Hs2].
  pose proof (COS_bound (2 * PI * IZR (month - 3) / 12)) as [Hc1 Hc2].
  split; lra.
Qed.

(** ** The week of a date *)

(** X19. The week that [main] assigns to a leg of date [d] is the Monday
    on or before [d], at most 6 days before it, and another date gets
    the same week exactly when it lies in the 7 days from that Monday. *)
Theorem week_start_time_bucket (d d' : Timestamp) :
  weekday (week_start_time d) = 0%Z
  /\ (week_start_time d <= d <= week_start_time d + 6)%Z
  /\ (week_start_time d' = week_start_time d
      <-> (week_start_time d <= d' <= week_start_time d + 6)%Z).
Proof.
  unfold week_start_time, weekday.
  split; [Z.div_mod_to_equations; lia|].
  split; [Z.div_mod_to_equations; lia|].
  split; intros H.
  - rewrite <- H. Z.div_mod_to_equations. lia.
  - destruct H as [H1 H2]. revert H1 H2. Z.div_mod_to_equations. lia.
Qed.

(** ** The rows in date order *)

(** [df] stands for the rows of the schedule as [sort_values("date")]
    leaves them: the same rows, in ascending date order, rows of equal
    date in whichever order the sort gives them.  When no two games have
    the same date there is one such order. *)
Lemma sorted_rows_unique (games df : list Game) :
  Permutation df games ->
  chronological df = true ->
  distinct_dates games = true ->
  sort_values games = df.
Proof.
  intros Hp Hs Hd.
  apply chronological_unique; [apply sort_values_sorted|exact Hs| |].
  - apply (Permutation_NoDup
             (Permutation_map game_date
                (Permutation_sym (sort_values_perm games)))).
    apply distinct_dates_NoDup. exact Hd.
  - eapply Permutation_trans; [apply sort_values_perm|].
    apply Permutation_sym. exact Hp.
Qed.

Lemma compute_trip_legs_rows (games df : list Game) (cities_df : list City)
  (base_city : string) :
  Permutation df games ->
  chronological df = true ->
  distinct_dates games = true ->
  compute_trip_legs games cities_df base_city
  = legs_of_rows df cities_df base_city.
Proof.
  intros Hp Hs Hd. unfold compute_trip_legs, legs_of_rows.
  rewrite (sorted_rows_unique _ _ Hp Hs Hd). reflexivity.
Qed.



(** C3. With no game, [compute_trip_legs] returns no leg at all.  Let
    [df] be the games in the order the sort leaves them (ascending dates,
    games of equal date in any order), all their cities in the table.
    The loop over [df] ends in a state [st], and the result is the legs
    of [st] alone when the venue of the last game visited is the home
    base, and those legs followed by one leg from that venue to the home
    base, dated at the date of that game, the latest of the schedule,
    when it is not.  When no two games have the same date, this is the
    result of [compute_trip_legs] on the games in any row order. *)
Theorem compute_trip_legs_closing_leg
  (games df : list Game) (cities_df : list City) (base_city : string) :
  compute_trip_legs [] cities_df base_city = inr [] /\
  (Permutation df games ->
   chronological df = true ->
   forallb (city_known cities_df) (base_city :: venues df) = true ->
   exists st,
     iterrows cities_df (mkCursor [] base_city None) df = inr st /\
     (distinct_dates games = true ->
      compute_trip_legs games cities_df base_city
      = legs_of_rows df cities_df base_city) /\
     match rev df with
     | [] => legs_of_rows df cities_df base_city = inr []
     | g_last :: earlier =>
         Forall (fun g => (game_date g <= game_date g_last)%Z) earlier /\
         if String.eqb (venue_city g_last) base_city
         then legs_of_rows df cities_df base_city = inr (legs st)
         else exists l,
             is_leg cities_df (game_date g_last) (venue_city g_last)
                    base_city l /\
             legs_of_rows df cities_df base_city = inr (legs st ++ [l])
     end).
Proof.
  split.
  { unfold compute_trip_legs, travel_home. simpl.
    rewrite String.eqb_refl. reflexivity. }
  intros Hperm Hsorted Hknown.
  simpl in Hknown. apply andb_prop in Hknown. destruct Hknown as [Hb Hv].
  destruct (iterrows_known cities_df df (mkCursor [] base_city None) Hb Hv)
    as [emitted [Hrun _]].
  cbn [legs prev_city prev_date app] in Hrun.
  eexists. split; [exact Hrun|].
  split; [intros Hd; apply compute_trip_legs_rows; assumption|].
  unfold legs_of_rows. rewrite Hrun. cbn [bind].
  destruct (rev df) as [|g_last t] eqn:Erev.
  - assert (Hnil : df = []).
    { rewrite <- (rev_involutive df), Erev. reflexivity. }
    subst df. simpl in Hrun. injection Hrun as Hl.
    unfold travel_home. cbn [legs prev_city]. rewrite <- Hl.
    simpl. rewrite String.eqb_refl. reflexivity.
  - apply rev_cons_app in Erev. subst df. split.
    { apply chronological_snoc in Hsorted. destruct Hsorted as [_ Hle].
      rewrite forallb_forall in Hle. apply Forall_forall.
      intros g Hg. apply Z.leb_le. apply Hle.
      apply (proj1 (in_rev t g)). exact Hg. }
    unfold travel_home. cbn [legs prev_city prev_date].
    unfold venues. rewrite !map_app. cbn [map]. rewrite !last_last.
    destruct (String.eqb (venue_city g_last) base_city) eqn:E; cbn [negb].
    + reflexivity.
    + assert (Hg : city_known cities_df (venue_city g_last) = true).
      { unfold venues in Hv. rewrite map_app, forallb_app in Hv.
        apply andb_prop in Hv. destruct Hv as [_ Hv]. simpl in Hv.
        rewrite andb_true_r in Hv. exact Hv. }
      destruct (city_row_known _ _ Hg) as [fr Hfr].
      destruct (city_row_known _ _ Hb) as [tr Htr].
      rewrite Hfr, Htr. cbn [bind].
      eexists. split; [|reflexivity].
      exists fr, tr. auto.
Qed.

Lemma compute_trip_legs_closing_leg_witness :
  exists st,
    iterrows (example_cities "DFW" "DEN") (mkCursor [] "Dallas" None)
             example_games = inr st /\
    (distinct_dates example_games = true ->
     compute_trip_legs example_games (example_cities "DFW" "DEN") "Dallas"
     = legs_of_rows example_games (example_cities "DFW" "DEN") "Dallas") /\
    Forall (fun g => (game_date g <= ymd 2024 1 5)%Z) [] /\
    exists l,
      is_leg (example_cities "DFW" "DEN") (ymd 2024 1 5) "Denver" "Dallas" l /\
      legs_of_rows example_games (example_cities "DFW" "DEN") "Dallas"
      = inr (legs st ++ [l]).
Proof.
  exact (proj2 (compute_trip_legs_closing_leg
                  example_games example_games
                  (example_cities "DFW" "DEN") "Dallas")
               (Permutation_refl _) eq_refl eq_refl).
Defined.

(** X7. Let [df] be the games in the order the sort leaves them
    (ascending dates, games of equal date in any order).  The number of
    legs returned for [df] is the number of its games played in another
    city than the game before (than the home base for the first game),
    plus one when the last venue is not the home base.  When no two games
    have the same date, these are the legs of [compute_trip_legs] on the
    games in any row order. *)
Theorem compute_trip_legs_count
  (games df : list Game) (cities_df : list City) (base_city : string)
  (out : list Leg) :
  Permutation df games ->
  chronological df = true ->
  legs_of_rows df cities_df base_city = inr out ->
  List.length out
  = (venue_changes base_city (venues df)
     + (if String.eqb (last (venues df) base_city) base_city
        then 0 else 1))%nat
  /\ (distinct_dates games = true ->
      compute_trip_legs games cities_df base_city = inr out).
Proof.
  intros Hperm Hsorted Hout. split.
  - revert Hout. unfold legs_of_rows.
    destruct (iterrows cities_df (mkCursor [] base_city None) df)
      as [e|st] eqn:Erun; cbn [bind]; [discriminate|].
    destruct (iterrows_count _ _ _ _ Erun) as [Hlen Hlast].
    cbn [legs prev_city List.length] in Hlen, Hlast.
    unfold travel_home. rewrite Hlast.
    destruct (String.eqb (last (venues df) base_city) base_city);
      cbn [negb].
    + intros H. injection H as <-. lia.
    + destruct (city_row cities_df (last (venues df) base_city));
        cbn [bind]; [discriminate|].
      destruct (city_row cities_df base_city); cbn [bind ret];
        [discriminate|].
      intros H. injection H as <-. rewrite length_app. simpl. lia.
  - intros Hd.
    rewrite (compute_trip_legs_rows _ _ _ _ Hperm Hsorted Hd). exact Hout.
Qed.

Lemma compute_trip_legs_count_witness :
  List.length
    [ mkLeg (Some (ymd 2024 1 5)) "Dallas" "Denver"
            (haversine 32.78 (-96.80) 39.74 (-104.99));
      mkLeg (Some (ymd 2024 1 5)) "Denver" "Dallas"
            (haversine 39.74 (-104.99) 32.78 (-96.80)) ]
  = (venue_changes "Dallas" (venues example_games)
     + (if String.eqb (last (venues example_games) "Dallas"%string) "Dallas"
        then 0 else 1))%nat
  /\ (distinct_dates example_games = true ->
      compute_trip_legs example_games (example_cities "DFW" "DEN") "Dallas"
      = inr [ mkLeg (Some (ymd 2024 1 5)) "Dallas" "Denver"
                    (haversine 32.78 (-96.80) 39.74 (-104.99));
              mkLeg (Some (ymd 2024 1 5)) "Denver" "Dallas"
                    (haversine 39.74 (-104.99) 32.78 (-96.80)) ]).
Proof.
  apply (compute_trip_legs_count
           example_games example_games (example_cities "DFW" "DEN") "Dallas").
  - apply Permutation_refl.
  - reflexivity.
  - evaluate. reflexivity.
Defined.

(** ** The whole run of [main] *)

Lemma groupby_sum_nonempty (w : Timestamp) (ks : list Analysis.cell)
  (v : Analysis.cell) (vs : list Analysis.cell) :
  Analysis.groupby_sum (Analysis.Stamp w :: ks) (v :: vs) <> [].
Proof.
  assert (G : forall (kv : list (Analysis.cell * Analysis.cell))
                     (acc : Series R),
             acc <> [] ->
             fold_left
               (fun acc kv =>
                  match kv with
                  | (Analysis.Stamp w, Analysis.Num x) =>
                      Analysis.add_to_group w x acc
                  | (Analysis.Stamp w, _) => Analysis.add_to_group w 0%R acc
                  | _ => acc
                  end) kv acc <> []).
  { induction kv as [|[k u] rest IH]; intros acc Ha; simpl; [exact Ha|].
    apply IH.
    assert (Hadd : forall w x, Analysis.add_to_group w x acc <> []).
    { intros w0 x. destruct acc as [|[w' y] t]; simpl; [discriminate|].
      destruct (w0 <? w')%Z; [discriminate|].
      destruct (w0 =? w')%Z; discriminate. }
    destruct k; try exact Ha. destruct u; apply Hadd. }
  unfold Analysis.groupby_sum. cbn [combine fold_left].
  apply G. destruct v; simpl; discriminate.
Qed.

Lemma groupby_sum_one_week_nonempty (w : Timestamp) (l : Leg)
  (trip : list Leg) :
  Forall (fun x => week_cell x = Analysis.Stamp w) (l :: trip) ->
  exists x, weekly_km_of_legs (l :: trip) = [(w, x)].
Proof.
  intros H.
  assert (Hkeys : Forall (fun k => k = Analysis.Stamp w)
                         (map week_cell (l :: trip))).
  { apply Forall_forall. intros k Hk. apply in_map_iff in Hk.
    destruct Hk as [x [<- Hx]]. rewrite Forall_forall in H. auto. }
  change (weekly_km_of_legs (l :: trip))
    with (Analysis.groupby_sum (map week_cell (l :: trip))
            (map (fun x => Analysis.Num (km x)) (l :: trip))).
  destruct (groupby_sum_one_week w _
              (map (fun x => Analysis.Num (km x)) (l :: trip)) Hkeys)
    as [Hnil|Hone]; [|exact Hone].
  exfalso. revert Hnil. cbn [map].
  inversion H as [|? ? Hl _]; subst. rewrite Hl.
  apply groupby_sum_nonempty.
Qed.

Section WholeRun.

Variable Generator : Type.
Variable default_rng : Z -> Generator.
Variable normal : Generator -> R -> R -> R * Generator.
Variable Fitted : Type.
Variable SARIMAX_fit : Series (option R) -> Series R -> result Fitted.
Variable get_forecast :
  Fitted -> nat -> Series R -> result (list (Timestamp * R * R * R)).

(** A whole run went through the statements of [main_locals], with a
    training window that is not empty, and wrote the frame of legs of its
    locals. *)
Lemma main_inv (df_cities : list City) (df_sched : list Game)
  (out : Analysis.Outputs) :
  Analysis.main Generator default_rng normal Fitted SARIMAX_fit get_forecast
                df_cities df_sched = inr out ->
  Analysis.main_locals Generator default_rng normal df_cities df_sched
  = inr (Analysis.final_locals out)
  /\ Analysis.travel_legs_file out
     = Analysis.travel_legs_csv (Analysis.final_locals out)
  /\ Analysis.train_cost (Analysis.final_locals out) <> [].
Proof.
  unfold Analysis.main, Analysis.main_locals.
  destruct (compute_trip_legs df_sched df_cities Analysis.BASE_CITY)
    as [e|trip]; cbn [bind]; [discriminate|].
  destruct (Analysis.getitem _ "date") as [e|dates]; cbn [bind];
    [discriminate|].
  destruct (Analysis.getitem _ "week") as [e|weeks]; cbn [bind];
    [discriminate|].
  destruct (Analysis.getitem _ "km") as [e|kms]; cbn [bind];
    [discriminate|].
  destruct (Analysis.date_range_of _) as [e|idx]; cbn [bind];
    [discriminate|].
  destruct (Analysis.iloc_to _ (Analysis.interpolate _)) as [|c cs] eqn:Etrain;
    cbn [bind raise]; [discriminate|].
  destruct (SARIMAX_fit _ _) as [e|res]; cbn [bind]; [discriminate|].
  destruct (Analysis.concat_future _) as [e|fut]; cbn [bind];
    [discriminate|].
  destruct (get_forecast _ _ _) as [e|pred]; cbn [bind ret];
    [discriminate|].
  intros H. injection H as <-.
  cbn [Analysis.final_locals Analysis.travel_legs_file Analysis.train_cost].
  split; [reflexivity|]. split; [reflexivity|discriminate].
Qed.

(** C5, as amended.  In every run of [main] that reaches the export, the
    file written is assets/travel_legs.csv, its columns are date,
    from_city, to_city, km and week, in this order, and it has one line
    for each leg that [compute_trip_legs] returned: the four cells of
    the leg and the start of its week. *)
Theorem travel_legs_csv_columns
  (df_cities : list City) (df_sched : list Game) (out : Analysis.Outputs) :
  Analysis.main Generator default_rng normal Fitted SARIMAX_fit get_forecast
                df_cities df_sched = inr out ->
  fst (Analysis.travel_legs_file out) = "assets/travel_legs.csv"%string
  /\ Analysis.header (snd (Analysis.travel_legs_file out))
     = [ "date"; "from_city"; "to_city"; "km"; "week" ]%string
  /\ exists trip,
       compute_trip_legs df_sched df_cities Analysis.BASE_CITY = inr trip
       /\ Analysis.lines (snd (Analysis.travel_legs_file out))
          = map (fun x => leg_cells x ++ [week_cell x]) trip.
Proof.
  intros H. destruct (main_inv _ _ _ H) as [Hloc [Hfile _]].
  destruct (main_locals_inv _ _ _ _ _ _ Hloc)
    as (l & trip & Htrip & Hlegs & _).
  rewrite Hfile.
  unfold Analysis.travel_legs_csv, Analysis.to_csv. cbn [fst snd].
  rewrite Hlegs. cbn [Analysis.header Analysis.lines Analysis.columns
                      Analysis.rows].
  split; [reflexivity|]. split; [reflexivity|].
  exists (l :: trip). split; [exact Htrip|reflexivity].
Qed.

(** X11. When all the legs of the schedule fall in the same week (Monday
    to Sunday), the weekly-km series has that one week, the weekly grid
    computed from it is empty, and [main] stops with [ValueError] at the
    fit of the model, on an empty training window. *)
Theorem main_one_week_stops
  (df_cities : list City) (df_sched : list Game) (l : Leg) (trip : list Leg)
  (w : Timestamp) :
  compute_trip_legs df_sched df_cities Analysis.BASE_CITY = inr (l :: trip) ->
  Forall (fun x => week_cell x = Analysis.Stamp w) (l :: trip) ->
  Analysis.index (weekly_km_of_legs (l :: trip)) = [w]
  /\ Analysis.date_range_of (weekly_km_of_legs (l :: trip)) = inr []
  /\ Analysis.main Generator default_rng normal Fitted SARIMAX_fit
                   get_forecast df_cities df_sched
     = inl ValueError.
Proof.
  intros Htrip Hweek.
  destruct (groupby_sum_one_week_nonempty w l trip Hweek) as [x Hone].
  assert (Hmon : weekday w = 0%Z).
  { inversion Hweek as [|? ? Hl _]; subst.
    unfold week_cell, date_cell in Hl. destruct (date l); simpl in Hl;
      [|discriminate].
    injection Hl as <-. apply weekday_week_start_time. }
  assert (Hgrid : Analysis.date_range_of (weekly_km_of_legs (l :: trip))
                  = inr []).
  { rewrite Hone. unfold Analysis.date_range_of. simpl.
    rewrite (date_range_W_monday w Hmon). reflexivity. }
  split; [rewrite Hone; reflexivity|]. split; [exact Hgrid|].
  unfold Analysis.main. rewrite Htrip. cbn [bind].
  rewrite leg_records_columns, getitem_date. cbn [bind].
  rewrite setitem_week, getitem_week. cbn [bind].
  rewrite getitem_km. cbn [bind].
  change (Analysis.groupby_sum (map week_cell (l :: trip))
            (map (fun l0 => Analysis.Num (km l0)) (l :: trip)))
    with (weekly_km_of_legs (l :: trip)).
  rewrite Hgrid. reflexivity.
Qed.

End WholeRun.

Section ForecastInputs.

Variable Generator : Type.
Variable default_rng : Z -> Generator.
Variable normal : Generator -> R -> R -> R * Generator.

Lemma main_km_zero
  (df_cities : list City) (df_sched : list Game) (L : Analysis.Locals) :
  Analysis.main_locals Generator default_rng normal df_cities df_sched
  = inr L ->
  Analysis.km L = map (fun t => (t, 0%R)) (Analysis.weekly_index L).
Proof.
  intros H. destruct (main_locals_inv _ _ _ _ _ _ H)
    as (l & trip & _ & _ & _ & _ & _ & Hkm & _).
  rewrite Hkm, (reindex_absent _ _ (main_grid_disjoint _ _ _ _ _ _ H)).
  unfold Analysis.fillna. rewrite map_map. reflexivity.
Qed.

Lemma values_zero_series (s : Series R) (idx : list Timestamp) (k : nat) :
  s = skipn k (map (fun t => (t, 0%R)) idx) ->
  Analysis.values s = repeat 0%R (List.length s).
Proof.
  intros ->. rewrite skipn_map. generalize (skipn k idx). intros l.
  unfold Analysis.values. rewrite map_map, length_map. cbn [snd].
  induction l as [|t ts IH]; simpl; [reflexivity|]. rewrite IH.
  reflexivity.
Qed.

(** C8, what the code does.  In every run of [main] that reaches the
    forecast, the horizon is the number of test points plus 12, and the
    future regressor series is the test window of the km series on the
    grid followed by exactly 12 rows of 0.0, one row for each step of the
    horizon.  But the km series on the grid is 0.0 at every point, so
    every value of the future regressor is 0.0, the test window included,
    though the weekly-km series is not empty and its values sum to the
    km of all the legs. *)
Theorem main_exog_future_all_zero
  (df_cities : list City) (df_sched : list Game) (L : Analysis.Locals) :
  Analysis.main_locals Generator default_rng normal df_cities df_sched
  = inr L ->
  Analysis.horizon L = (List.length (Analysis.test_cost L) + 12)%nat
  /\ List.length (Analysis.test_cost L) = List.length (Analysis.test_km L)
  /\ Analysis.test_km L
     = Analysis.iloc_from (Analysis.split L) (Analysis.km L)
  /\ Analysis.values (Analysis.exog_future L)
     = Analysis.values (Analysis.test_km L) ++ repeat 0%R 12
  /\ List.length (Analysis.exog_future L) = Analysis.horizon L
  /\ Analysis.values (Analysis.test_km L)
     = repeat 0%R (List.length (Analysis.test_km L))
  /\ Analysis.values (Analysis.exog_future L)
     = repeat 0%R (Analysis.horizon L)
  /\ Analysis.ts_km_weekly L <> []
  /\ exists trip : list Leg,
       compute_trip_legs df_sched df_cities Analysis.BASE_CITY = inr trip
       /\ total (Analysis.values (Analysis.ts_km_weekly L))
          = total (map km trip).
Proof.
  intros H. destruct (main_locals_inv _ _ _ _ _ _ H)
    as (l & trip & Htrip & _ & Hts & _ & Hidx & Hkm & Hcost & _ & _ & Htc
        & _ & Htk & Hh & Hfut).
  destruct (concat_future_inv _ _ Hfut) as [_ [fi [Hfi Hexog]]].
  destruct (date_range_of_nonempty _ _ Hidx) as [Hne _].
  assert (Hlen : List.length (Analysis.test_cost L)
                 = List.length (Analysis.test_km L)).
  { rewrite Htc, Htk. unfold Analysis.iloc_from. rewrite !length_skipn.
    rewrite Hcost, Hkm, length_interpolate. unfold Analysis.fillna,
      Analysis.reindex. rewrite !length_map. reflexivity. }
  assert (Hvals : Analysis.values (Analysis.exog_future L)
                  = Analysis.values (Analysis.test_km L) ++ repeat 0%R 12).
  { rewrite Hexog. unfold Analysis.values. rewrite map_app. f_equal.
    destruct fi as [|a0 [|a1 [|a2 [|a3 [|a4 [|a5 [|a6 [|a7 [|a8 [|a9 [|a10
      [|a11 [|a12 fi]]]]]]]]]]]]]; try discriminate. reflexivity. }
  assert (Hzero : Analysis.values (Analysis.test_km L)
                  = repeat 0%R (List.length (Analysis.test_km L))).
  { apply (values_zero_series _ (Analysis.weekly_index L)
             (Analysis.slice_bound (Analysis.split L)
                (List.length (Analysis.km L)))).
    rewrite Htk at 1. unfold Analysis.iloc_from.
    rewrite (main_km_zero _ _ _ H) at 2. reflexivity. }
  split; [exact Hh|]. split; [exact Hlen|]. split; [exact Htk|].
  split; [exact Hvals|]. split.
  { rewrite Hh, Hlen.
    rewrite <- (length_map snd (Analysis.exog_future L)).
    change (map snd (Analysis.exog_future L))
      with (Analysis.values (Analysis.exog_future L)).
    rewrite Hvals, length_app, repeat_length.
    unfold Analysis.values. rewrite length_map. reflexivity. }
  split; [exact Hzero|]. split.
  { rewrite Hvals, Hzero, Hh, Hlen, <- repeat_app. reflexivity. }
  split; [exact Hne|].
  exists (l :: trip). split; [exact Htrip|].
  destruct (compute_trip_legs_wf _ _ _ _ Htrip) as [_ Hwf].
  assert (Hdates : Forall (fun x => date x <> None) (l :: trip)).
  { eapply Forall_impl; [|exact Hwf].
    intros x [[g [_ Hg]] _]. congruence. }
  destruct (groupby_legs (l :: trip) Hdates []) as [Htot _].
  unfold Analysis.values. rewrite Hts. unfold Analysis.groupby_sum.
  rewrite Htot. simpl. lra.
Qed.

(** X14. In every run of [main] that reaches the forecast, the index of
    the future regressor series is the index of the test window followed
    by the 12 Sundays after the last point of the grid, one week
    apart. *)
Theorem main_exog_future_index
  (df_cities : list City) (df_sched : list Game) (L : Analysis.Locals) :
  Analysis.main_locals Generator default_rng normal df_cities df_sched
  = inr L ->
  let last_week := last (Analysis.weekly_index L) 0%Z in
  Analysis.weekly_index L <> []
  /\ weekday last_week = 6%Z
  /\ Analysis.index (Analysis.exog_future L)
     = Analysis.index (Analysis.test_km L)
       ++ map (fun i => (last_week + 7 * (Z.of_nat i + 1))%Z) (seq 0 12).
Proof.
  intros Hrun last_week.
  destruct (main_locals_inv _ _ _ _ _ _ Hrun)
    as (l & t & _ & _ & _ & _ & Hidx & _ & _ & _ & _ & _ & _ & Htk
        & _ & Hfut).
  pose proof (main_km_zero _ _ _ Hrun) as Hkm.
  destruct (date_range_of_nonempty _ _ Hidx) as [_ [lo [hi Hgrid]]].
  unfold Analysis.concat_future in Hfut.
  destruct (rev (Analysis.index (Analysis.test_km L))) as [|lw rest] eqn:Erev;
    [discriminate|].
  injection Hfut as Hfut.
  apply rev_cons_app in Erev.
  assert (Hsplit : Analysis.weekly_index L
                   = firstn (Analysis.slice_bound (Analysis.split L)
                               (List.length (Analysis.km L)))
                            (Analysis.weekly_index L)
                     ++ rev rest ++ [lw]).
  { assert (Hik : map fst (Analysis.km L) = Analysis.weekly_index L).
    { rewrite Hkm, map_map. cbn [fst]. apply map_id. }
    rewrite <- Erev, Htk. unfold Analysis.index, Analysis.iloc_from.
    rewrite <- skipn_map, Hik. symmetry. apply firstn_skipn. }
  assert (Hlast : last_week = lw).
  { unfold last_week. rewrite Hsplit, app_assoc. apply last_last. }
  assert (Hne : Analysis.weekly_index L <> []).
  { rewrite Hsplit. intros E. apply app_eq_nil in E. destruct E as [_ E].
    apply app_eq_nil in E. destruct E as [_ E]. discriminate. }
  assert (Hin : In lw (Analysis.weekly_index L)).
  { rewrite Hsplit. apply in_or_app. right. apply in_or_app. right.
    left. reflexivity. }
  assert (Hsun : weekday lw = 6%Z).
  { rewrite Hgrid in Hin. exact (weekday_date_range_W _ _ _ Hin). }
  split; [exact Hne|]. rewrite Hlast. split; [exact Hsun|].
  rewrite <- Hfut. unfold Analysis.index. rewrite map_app. f_equal.
  assert (Hroll : rollforward_W (lw + 7)%Z = (lw + 7)%Z).
  { unfold rollforward_W, weekday in *. revert Hsun.
    Z.div_mod_to_equations. lia. }
  rewrite Hroll. cbn [map seq fst].
  repeat (f_equal; try lia).
Qed.

End ForecastInputs.

(** ** Runs of [main] on the schedule of five games *)

Lemma travel_legs_csv_columns_witness :
  exists out,
    Analysis.main nat counting_rng counting_normal
      unit constant_fit constant_forecast
      (example_cities "DFW" "DEN") five_week_games = inr out
    /\ fst (Analysis.travel_legs_file out) = "assets/travel_legs.csv"%string
    /\ Analysis.header (snd (Analysis.travel_legs_file out))
       = [ "date"; "from_city"; "to_city"; "km"; "week" ]%string
    /\ exists trip,
         compute_trip_legs five_week_games (example_cities "DFW" "DEN")
                           Analysis.BASE_CITY = inr trip
         /\ Analysis.lines (snd (Analysis.travel_legs_file out))
            = map (fun x => leg_cells x ++ [week_cell x]) trip.
Proof.
  eexists. split; [evaluate; reflexivity|].
  apply (travel_legs_csv_columns nat counting_rng counting_normal
           unit constant_fit constant_forecast
           (example_cities "DFW" "DEN") five_week_games).
  evaluate. reflexivity.
Defined.

(** C5 as stated fails: in this run, with a training window of two
    weeks, the header of the file written has a fifth column, week. *)
Lemma travel_legs_csv_has_week_column :
  exists out,
    Analysis.main nat counting_rng counting_normal
      unit constant_fit constant_forecast
      (example_cities "DFW" "DEN") five_week_games = inr out
    /\ List.length (Analysis.train_cost (Analysis.final_locals out)) = 2%nat
    /\ Analysis.header (snd (Analysis.travel_legs_file out))
       = [ "date"; "from_city"; "to_city"; "km"; "week" ]%string
    /\ Analysis.header (snd (Analysis.travel_legs_file out))
       <> [ "date"; "from_city"; "to_city"; "km" ]%string.
Proof.
  eexists. split; [evaluate; reflexivity|].
  split; [evaluate; reflexivity|].
  split; [evaluate; reflexivity|evaluate; discriminate].
Qed.

Lemma main_one_week_stops_witness :
  Analysis.index
    (weekly_km_of_legs
       [ mkLeg (Some (ymd 2024 1 5)) "Dallas" "Denver"
               (haversine 32.78 (-96.80) 39.74 (-104.99));
         mkLeg (Some (ymd 2024 1 5)) "Denver" "Dallas"
               (haversine 39.74 (-104.99) 32.78 (-96.80)) ])
  = [ ymd 2024 1 1 ]
  /\ Analysis.date_range_of
       (weekly_km_of_legs
          [ mkLeg (Some (ymd 2024 1 5)) "Dallas" "Denver"
                  (haversine 32.78 (-96.80) 39.74 (-104.99));
            mkLeg (Some (ymd 2024 1 5)) "Denver" "Dallas"
                  (haversine 39.74 (-104.99) 32.78 (-96.80)) ])
     = inr []
  /\ Analysis.main nat counting_rng counting_normal
       unit constant_fit constant_forecast
       (example_cities "DFW" "DEN") example_games
     = inl ValueError.
Proof.
  apply (main_one_week_stops nat counting_rng counting_normal
           unit constant_fit constant_forecast
           (example_cities "DFW" "DEN") example_games).
  - evaluate. reflexivity.
  - repeat constructor.
Defined.

Lemma main_exog_future_all_zero_witness :
  exists L,
    Analysis.main_locals nat counting_rng counting_normal
      (example_cities "DFW" "DEN") five_week_games = inr L
    /\ Analysis.horizon L = (List.length (Analysis.test_cost L) + 12)%nat
    /\ List.length (Analysis.test_cost L) = List.length (Analysis.test_km L)
    /\ Analysis.test_km L
       = Analysis.iloc_from (Analysis.split L) (Analysis.km L)
    /\ Analysis.values (Analysis.exog_future L)
       = Analysis.values (Analysis.test_km L) ++ repeat 0%R 12
    /\ List.length (Analysis.exog_future L) = Analysis.horizon L
    /\ Analysis.values (Analysis.test_km L)
       = repeat 0%R (List.length (Analysis.test_km L))
    /\ Analysis.values (Analysis.exog_future L)
       = repeat 0%R (Analysis.horizon L)
    /\ Analysis.ts_km_weekly L <> []
    /\ exists trip : list Leg,
         compute_trip_legs five_week_games (example_cities "DFW" "DEN")
                           Analysis.BASE_CITY = inr trip
         /\ total (Analysis.values (Analysis.ts_km_weekly L))
            = total (map km trip).
Proof.
  eexists. split; [evaluate; reflexivity|].
  apply (main_exog_future_all_zero nat counting_rng counting_normal
           (example_cities "DFW" "DEN") five_week_games).
  evaluate. reflexivity.
Defined.

(** The run on the five games: the weeks of the km series are the five
    Mondays from 2024-01-01 to 2024-01-29, the grid is the four Sundays
    from 2024-01-07 to 2024-01-28, the test window is the last two of
    them, and the future regressor is 0.0 at its 14 rows. *)
Lemma five_week_run_exog_future :
  exists L,
    Analysis.main_locals nat counting_rng counting_normal
      (example_cities "DFW" "DEN") five_week_games = inr L
    /\ Analysis.index (Analysis.ts_km_weekly L)
       = [ ymd 2024 1 1; ymd 2024 1 8; ymd 2024 1 15; ymd 2024 1 22;
           ymd 2024 1 29 ]
    /\ Analysis.weekly_index L
       = [ ymd 2024 1 7; ymd 2024 1 14; ymd 2024 1 21; ymd 2024 1 28 ]
    /\ Analysis.test_km L = [ (ymd 2024 1 21, 0%R); (ymd 2024 1 28, 0%R) ]
    /\ Analysis.horizon L = 14%nat
    /\ Analysis.values (Analysis.exog_future L) = repeat 0%R 14.
Proof.
  eexists. split; [evaluate; reflexivity|].
  repeat split; evaluate; reflexivity.
Qed.

Lemma main_exog_future_index_witness :
  exists L,
    Analysis.main_locals nat counting_rng counting_normal
      (example_cities "DFW" "DEN") five_week_games = inr L
    /\ let last_week := last (Analysis.weekly_index L) 0%Z in
       Analysis.weekly_index L <> []
       /\ weekday last_week = 6%Z
       /\ Analysis.index (Analysis.exog_future L)
          = Analysis.index (Analysis.test_km L)
            ++ map (fun i => (last_week + 7 * (Z.of_nat i + 1))%Z) (seq 0 12).
Proof.
  eexists. split; [evaluate; reflexivity|].
  apply (main_exog_future_index nat counting_rng counting_normal
           (example_cities "DFW" "DEN") five_week_games).
  evaluate. reflexivity.
Defined.
